(** * DeveloperEmail: a shallow embedding of the disposable-mailbox client

    The development follows the three source files of the package:
    - [developer/error.py]   the exception class [EmailException];
    - [developer/models.py]  the dataclasses and their [from_dict] builders;
    - [developer/email.py]   the class [DeveloperEmail]: the retrying
      request primitive, the three REST operations and the poll loop.

    Python values that cross the wire are JSON documents.  Exceptions are
    values of the type [exn]; a computation that may raise returns a [res].
    The network, the clock and [asyncio.sleep] are effects on an explicit
    [World]. *)

From Stdlib Require Import ZArith QArith Qround Lqa String Ascii List Bool Lia DecimalString.
Import ListNotations.
Local Open Scope list_scope.
Local Open Scope string_scope.
Set Warnings "-register-all".

(** ** Python values and the built-ins the package uses *)

Module Py.

(** A decoded JSON document.  A [JDict] lists its items in insertion order,
    with distinct keys, as a Python [dict] does.  Numbers are integers: the
    service's identifiers; non-integer numbers are outside the model. *)
Inductive json : Type :=
| JNull
| JBool (b : bool)
| JInt (z : Z)
| JStr (s : string)
| JList (items : list json)
| JDict (items : list (string * json)).

(** Exceptions, all of them subclasses of Python's [Exception].
    [ClientError] stands for whatever the HTTP session raises (connection
    failure, time-out of an attempt, undecodable body).  An [EmailException]
    object carries the two attributes its initialiser sets. *)
Inductive exn : Type :=
| TypeError (msg : string)
| ValueError (msg : string)
| KeyError (key : string)
| IndexError (msg : string)
| AttributeError (msg : string)
| ClientError (msg : string)
| EmailException (stats : json) (message : json).

(** The result of an expression: a value, or a raised exception. *)
Inductive res (A : Type) : Type :=
| Ok (a : A)
| Raise (e : exn).
Arguments Ok {A} a.
Arguments Raise {A} e.

Definition rbind {A B : Type} (r : res A) (k : A -> res B) : res B :=
  match r with
  | Ok a => k a
  | Raise e => Raise e
  end.

Fixpoint rmap {A B : Type} (f : A -> res B) (l : list A) : res (list B) :=
  match l with
  | [] => Ok []
  | x :: rest =>
      rbind (f x) (fun y => rbind (rmap f rest) (fun ys => Ok (y :: ys)))
  end.


(** [dict] lookup by key. *)
Fixpoint lookup (key : string) (items : list (string * json)) : option json :=
  match items with
  | [] => None
  | (k, v) :: rest => if String.eqb key k then Some v else lookup key rest
  end.

Definition type_name (v : json) : string :=
  match v with
  | JNull => "NoneType"
  | JBool _ => "bool"
  | JInt _ => "int"
  | JStr _ => "str"
  | JList _ => "list"
  | JDict _ => "dict"
  end.

Definition dquote : ascii := "034"%char.
Definition squote : ascii := "039"%char.
Definition backslash : ascii := "092"%char.

Fixpoint join (sep : string) (parts : list string) : string :=
  match parts with
  | [] => ""
  | [p] => p
  | p :: rest => p ++ sep ++ join sep rest
  end.

Fixpoint mentions (c : ascii) (s : string) : bool :=
  match s with
  | EmptyString => false
  | String d rest => Ascii.eqb c d || mentions c rest
  end.

Definition hex_digit (n : nat) : ascii :=
  nth n (list_ascii_of_string "0123456789abcdef") "0"%char.

(** [repr] of a [str]: single quotes unless the text holds a single quote and
    no double quote; the quote and the backslash are escaped, control
    characters are written as escapes. *)
Fixpoint repr_chars (quote : ascii) (s : string) : string :=
  match s with
  | EmptyString => ""
  | String c rest =>
      let n := nat_of_ascii c in
      (if Ascii.eqb c quote || Ascii.eqb c backslash
       then String backslash (String c "")
       else if Nat.eqb n 9 then String backslash "t"
       else if Nat.eqb n 10 then String backslash "n"
       else if Nat.eqb n 13 then String backslash "r"
       else if Nat.ltb n 32 || Nat.eqb n 127
       then String backslash
              (String "x" (String (hex_digit (n / 16)) (String (hex_digit (n mod 16)) "")))
       else String c "")
      ++ repr_chars quote rest
  end.

Definition repr_str (s : string) : string :=
  let quote := if mentions squote s && negb (mentions dquote s) then dquote else squote in
  String quote (repr_chars quote s ++ String quote "").

(** [repr(v)] *)
Fixpoint repr (v : json) : string :=
  match v with
  | JNull => "None"
  | JBool true => "True"
  | JBool false => "False"
  | JInt z => NilZero.string_of_int (Z.to_int z)
  | JStr s => repr_str s
  | JList items => "[" ++ join ", " (map repr items) ++ "]"
  | JDict items =>
      "{" ++ join ", " (map (fun kv => repr_str (fst kv) ++ ": " ++ repr (snd kv)) items) ++ "}"
  end.

(** [str(v)], which is also what an f-string field [{v}] inserts. *)
Definition str (v : json) : string :=
  match v with
  | JStr s => s
  | _ => repr v
  end.

(** [str(e)] for an exception: its single argument; a [KeyError] shows the
    [repr] of the key; [EmailException] passes a formatted text to
    [super().__init__]. *)
Definition str_exn (e : exn) : string :=
  match e with
  | TypeError msg | ValueError msg | IndexError msg
  | AttributeError msg | ClientError msg => msg
  | KeyError key => repr_str key
  | EmailException stats message => "(" ++ str stats ++ "): " ++ str message
  end.

(** Truth value testing: [__bool__], else [__len__], else true. *)
Class Truthy (A : Type) : Type := truth : A -> bool.

#[global] Instance Truthy_list {A : Type} : Truthy (list A) :=
  fun l => match l with [] => false | _ :: _ => true end.

(** [key in v] for a [str] key. *)
Definition contains (key : string) (v : json) : res bool :=
  match v with
  | JDict items => Ok (match lookup key items with Some _ => true | None => false end)
  | JList items =>
      Ok (existsb (fun x => match x with JStr s => String.eqb key s | _ => false end) items)
  | JStr s => Ok (match index 0 key s with Some _ => true | None => false end)
  | _ => Raise (TypeError ("argument of type '" ++ type_name v ++ "' is not iterable"))
  end.

(** [v[key]] for a [str] key. *)
Definition getitem (v : json) (key : string) : res json :=
  match v with
  | JDict items =>
      match lookup key items with
      | Some x => Ok x
      | None => Raise (KeyError key)
      end
  | JList _ => Raise (TypeError "list indices must be integers or slices, not str")
  | JStr _ => Raise (TypeError "string indices must be integers, not 'str'")
  | _ => Raise (TypeError ("'" ++ type_name v ++ "' object is not subscriptable"))
  end.

(** [d.get(key)] on the items of a dict [d]: [None] for a missing key. *)
Definition dict_get (key : string) (items : list (string * json)) : json :=
  match lookup key items with
  | Some x => x
  | None => JNull
  end.

(** [v.get(key)]: only a [dict] has the method. *)
Definition get (v : json) (key : string) : res json :=
  match v with
  | JDict items => Ok (dict_get key items)
  | _ => Raise (AttributeError ("'" ++ type_name v ++ "' object has no attribute 'get'"))
  end.

(** [for x in v]: the elements of a list, the keys of a dict, the characters
    of a string. *)
Definition iter (v : json) : res (list json) :=
  match v with
  | JList items => Ok items
  | JDict items => Ok (map (fun kv => JStr (fst kv)) items)
  | JStr s => Ok (map (fun c => JStr (String c "")) (list_ascii_of_string s))
  | _ => Raise (TypeError ("'" ++ type_name v ++ "' object is not iterable"))
  end.

(** [l[-1]] *)
Definition last_item {A : Type} (l : list A) : res A :=
  match rev l with
  | x :: _ => Ok x
  | [] => Raise (IndexError "list index out of range")
  end.

(** *** [int(v)] *)

Definition is_space (c : ascii) : bool :=
  let n := nat_of_ascii c in
  (Nat.leb 9 n && Nat.leb n 13) || (Nat.leb 28 n && Nat.leb n 32).

Fixpoint lstrip (cs : list ascii) : list ascii :=
  match cs with
  | c :: rest => if is_space c then lstrip rest else cs
  | [] => []
  end.

Definition strip (cs : list ascii) : list ascii :=
  rev (lstrip (rev (lstrip cs))).

Definition digit_of (c : ascii) : option Z :=
  let n := nat_of_ascii c in
  if Nat.leb 48 n && Nat.leb n 57 then Some (Z.of_nat (n - 48)) else None.

(** Decimal digits, single underscores allowed between two digits.
    [after_digit] tells whether the previous character was a digit. *)
Fixpoint digits (cs : list ascii) (acc : Z) (after_digit : bool) : option Z :=
  match cs with
  | [] => if after_digit then Some acc else None
  | c :: rest =>
      match digit_of c with
      | Some d => digits rest (10 * acc + d)%Z true
      | None =>
          if Ascii.eqb c "_"%char && after_digit
          then match rest with
               | [] => None
               | c' :: _ => match digit_of c' with
                            | Some _ => digits rest acc false
                            | None => None
                            end
               end
          else None
      end
  end.

Definition parse_int (s : string) : option Z :=
  match strip (list_ascii_of_string s) with
  | "-"%char :: cs => option_map Z.opp (digits cs 0%Z false)
  | "+"%char :: cs => digits cs 0%Z false
  | cs => digits cs 0%Z false
  end.

Definition int (v : json) : res Z :=
  match v with
  | JInt z => Ok z
  | JBool b => Ok (if b then 1%Z else 0%Z)
  | JStr s =>
      match parse_int s with
      | Some z => Ok z
      | None => Raise (ValueError ("invalid literal for int() with base 10: " ++ repr_str s))
      end
  | _ => Raise (TypeError ("int() argument must be a string, a bytes-like object or a real number, not '"
                           ++ type_name v ++ "'"))
  end.

(** *** Calling a function with keyword arguments

    [params] lists the parameters that may be passed by keyword with their
    defaults.  A keyword that names none of them is a [TypeError]. *)
Fixpoint set_param (k : string) (v : json) (params : list (string * json))
  : option (list (string * json)) :=
  match params with
  | [] => None
  | (p, d) :: rest =>
      if String.eqb k p then Some ((p, v) :: rest)
      else option_map (cons (p, d)) (set_param k v rest)
  end.

Fixpoint bind_keywords (fname : string) (params kwargs : list (string * json))
  : res (list (string * json)) :=
  match kwargs with
  | [] => Ok params
  | (k, v) :: rest =>
      match set_param k v params with
      | Some params' => bind_keywords fname params' rest
      | None =>
          Raise (TypeError (fname ++ "() got an unexpected keyword argument '" ++ k ++ "'"))
      end
  end.

(** The value a parameter ends up with. *)
Definition param (k : string) (args : list (string * json)) : json :=
  dict_get k args.

End Py.

Import Py.

Declare Scope res_scope.
Notation "x <- r ;; k" := (rbind r (fun x => k))
  (at level 61, r at next level, right associativity) : res_scope.
Delimit Scope res_scope with res.

(** ** developer/error.py *)

Module error.

(** [def __init__(self, stats: int = None, message: str = None)]: the
    parameters a caller may pass by keyword, with their defaults. *)
Definition EmailException_params : list (string * json) :=
  [("stats", JNull); ("message", JNull)].

(** The call [EmailException(k1=v1, ...)]: the keywords are bound to the
    initialiser's parameters, and the initialiser stores them. *)
Definition new_EmailException (kwargs : list (string * json)) : res exn :=
  (args <- bind_keywords "EmailException.__init__" EmailException_params kwargs ;;
   Ok (EmailException (param "stats" args) (param "message" args)))%res.

(** [raise EmailException(k1=v1, ...)]: the new object is raised, unless
    building it raised first. *)
Definition raise_EmailException {A : Type} (kwargs : list (string * json)) : res A :=
  match new_EmailException kwargs with
  | Ok e => Raise e
  | Raise e => Raise e
  end.

End error.

(** ** developer/models.py

    The dataclasses check no field type, so a field holds whatever the
    decoded document held. *)

Module CreateEmail.

Record t : Type := mk { name : json; domain : string; email : string; token : json }.

Definition from_dict (data : json) : res t :=
  (name <- getitem data "name" ;;
   name' <- getitem data "name" ;;
   token <- getitem data "token" ;;
   Ok (mk name "developermail.com" (str name' ++ "@developermail.com") token))%res.

End CreateEmail.

Module Ids.

Record t : Type := mk { id : Z }.

End Ids.

Module EmailIds.

Record t : Type := mk { mails : list Ids.t }.

(** A dataclass defines neither [__bool__] nor [__len__]. *)
#[global] Instance Truthy_t : Truthy t := fun _ => true.

Definition from_dict (data : json) : res t :=
  (items <- iter data ;;
   all_ids <- rmap (fun id_str => (z <- int id_str ;; Ok (Ids.mk z))) items ;;
   Ok (mk all_ids))%res.

End EmailIds.

Module Email.

Record t : Type := mk { id : json; content : json }.

End Email.

Module ViewEmail.

Record t : Type := mk { mails : list Email.t }.

(** A dataclass defines neither [__bool__] nor [__len__]. *)
#[global] Instance Truthy_t : Truthy t := fun _ => true.

(** The body of [for d in data], from the records still to visit and the
    list built so far. *)
Fixpoint collect (records : list json) (all_emails : list Email.t) : res (list Email.t) :=
  match records with
  | [] => Ok all_emails
  | d :: rest =>
      (has_key <- contains "key" d ;;
       has_both <- (if has_key : bool then contains "value" d else Ok false) ;;
       if has_both : bool
       then key <- getitem d "key" ;;
            value <- getitem d "value" ;;
            collect rest (all_emails ++ [Email.mk key value])%list
       else Raise (ValueError "Invalid format for email data dictionary"))%res
  end.

Definition from_dict (data : json) : res t :=
  (records <- iter data ;;
   all_emails <- collect records [] ;;
   Ok (mk all_emails))%res.

End ViewEmail.

(** ** developer/email.py *)

Module DeveloperEmail.

(** *** The world outside the client

    What [session.request] is called with. *)
Record Request : Type := mkRequest {
  method : string;
  url : string;
  headers : list (string * string);
  payload : option json;
  proxy : option string;
  attempt_timeout : Q
}.

(** How one HTTP attempt ends: [session.request] raises, or a response with
    a status arrives; [body] is what [await response.json()] gives when the
    client asks for it. *)
Inductive Outcome : Type :=
| Fails (e : exn)
| Responds (status : Z) (body : res json).

Record Attempt : Type := mkAttempt { latency : Q; outcome : Outcome }.

(** What the client did, oldest first. *)
Inductive Event : Type :=
| Sent (r : Request)
| Slept (seconds : Q).

(** [now]: the wall clock in seconds, an exact rational where Python has a
    float; [issued]: the number of attempts sent so far; [log]: the effects
    so far. *)
Record World : Type := mkWorld { now : Q; issued : nat; log : list Event }.

(** A coroutine: it changes the world and returns or raises. *)
Definition M (A : Type) : Type := World -> res A * World.

Definition ret {A : Type} (a : A) : M A := fun w => (Ok a, w).

Definition lift {A : Type} (r : res A) : M A := fun w => (r, w).

Definition bind {A B : Type} (c : M A) (k : A -> M B) : M B :=
  fun w =>
    match c w with
    | (Ok a, w') => k a w'
    | (Raise e, w') => (Raise e, w')
    end.

Declare Scope io_scope.
Delimit Scope io_scope with io.
Notation "x <- c ;; k" := (bind c (fun x => k))
  (at level 61, c at next level, right associativity) : io_scope.

(** The clock after [seconds] more; a delay that is not positive takes no
    time. *)
Definition later (seconds : Q) (t : Q) : Q :=
  if Qle_bool seconds 0 then t else (t + seconds)%Q.

(** [time.time()] *)
Definition time : M Q := fun w => (Ok (now w), w).

(** [await asyncio.sleep(seconds)] *)
Definition sleep (seconds : Q) : M unit :=
  fun w => (Ok tt, mkWorld (later seconds (now w)) (issued w) (log w ++ [Slept seconds])%list).

Definition Qlt_bool (x y : Q) : bool := negb (Qle_bool y x).

(** [self]: the session is set by [__init__] and is never falsy, so the
    [if not self.session] branch of the request primitive is dead. *)
Record t : Type := mk { base_url : string }.

(** [__init__(version)] *)
Definition init (version : string) : t :=
  mk ("https://www.developermail.com/api/" ++ version).

Definition default_timeout : Q := 10.
Definition default_attempts : Z := 3.

Section Client.

(** The remote service and the network: how the attempt number [n] ends when
    it carries the request [r]. *)
Variable service : nat -> Request -> Attempt.

(** How a float is printed in an f-string. *)
Variable format_float : Q -> string.

(** [async with self.session.request(...) as response]: the attempt is
    logged, takes its latency, and ends as the service says. *)
Definition send (r : Request) (w : World) : Outcome * World :=
  let a := service (issued w) r in
  (outcome a,
   mkWorld (later (latency a) (now w)) (S (issued w)) (log w ++ [Sent r])%list).

(** The [try] block of one attempt: [Some] is the value returned, [None]
    stands for [continue]. *)
Definition try_body (o : Outcome) : res (option json) :=
  match o with
  | Fails e => Raise e
  | Responds status body =>
      if (status =? 200)%Z
      then (data <- body ;;
            result <- get data "result" ;;
            Ok (Some result))%res
      else Ok None
  end.

(** [for attempt in range(attempts)], with [remaining] iterations to go,
    followed by the statement after the loop. *)
Fixpoint attempts_from (remaining : nat) (attempt attempts : Z) (r : Request)
  : M json :=
  fun w =>
    match remaining with
    | O =>
        (error.raise_EmailException
           [("status", JInt 500); ("message", JStr "Failed after multiple attempts")], w)
    | S remaining' =>
        let (o, w1) := send r w in
        match try_body o with
        | Ok (Some result) => (Ok result, w1)
        | Ok None => attempts_from remaining' (attempt + 1)%Z attempts r w1
        | Raise e =>
            if (attempt =? attempts - 1)%Z
            then (error.raise_EmailException
                    [("status", JInt 500); ("message", JStr (str_exn e))], w1)
            else attempts_from remaining' (attempt + 1)%Z attempts r (snd (sleep 1 w1))
        end
    end.

(** [__http_req] *)
Definition http_req (method url : string) (headers : list (string * string))
  (payload : option json) (proxy : option string) (timeout : Q) (attempts : Z)
  : M json :=
  attempts_from (Z.to_nat attempts) 0%Z attempts
    (mkRequest method url headers payload proxy timeout).

Definition create_mail (self : t) : M CreateEmail.t :=
  (data <- http_req "PUT" (base_url self ++ "/mailbox")
             [("accept", "application/json")] None None default_timeout default_attempts ;;
   lift (CreateEmail.from_dict data))%io.

Definition get_message_ids (self : t) (mailbox_name token : string) : M EmailIds.t :=
  (let headers := [("accept", "application/json"); ("X-MailboxToken", token)] in
   data <- http_req "GET" (base_url self ++ "/mailbox/" ++ mailbox_name)
             headers None None default_timeout default_attempts ;;
   lift (EmailIds.from_dict data))%io.

Definition get_messages (self : t) (mailbox_name token : string)
  (message_ids : list json) : M ViewEmail.t :=
  (let headers := [("accept", "application/json"); ("X-MailboxToken", token);
                   ("Content-Type", "application/json")] in
   data <- http_req "POST" (base_url self ++ "/mailbox/" ++ mailbox_name ++ "/messages")
             headers (Some (JDict [("message_ids", JList message_ids)])) None
             default_timeout default_attempts ;;
   lift (ViewEmail.from_dict data))%io.

(** The [while] loop of [wait_for_email] and the [raise] after it.  [fuel]
    bounds the number of iterations; [None] means the bound was reached. *)
Fixpoint poll (fuel : nat) (self : t) (mailbox_name token : string) (timeout : Q)
  (check_interval : Z) (start_time : Q) (w : World)
  : option (res ViewEmail.t * World) :=
  match fuel with
  | O => None
  | S fuel' =>
      if Qlt_bool (now w - start_time) timeout
      then
        match get_message_ids self mailbox_name token w with
        | (Raise e, w1) => Some (Raise e, w1)
        | (Ok message_ids, w1) =>
            if truth message_ids && truth (EmailIds.mails message_ids)
            then
              match (newest <- lift (last_item (EmailIds.mails message_ids)) ;;
                     get_messages self mailbox_name token [JInt (Ids.id newest)])%io w1 with
              | (Raise e, w2) => Some (Raise e, w2)
              | (Ok messages, w2) =>
                  if truth messages
                  then Some (Ok messages, w2)
                  else poll fuel' self mailbox_name token timeout check_interval start_time
                         (snd (sleep (inject_Z check_interval) w2))
              end
            else poll fuel' self mailbox_name token timeout check_interval start_time
                   (snd (sleep (inject_Z check_interval) w1))
        end
      else
        Some (error.raise_EmailException
                [("status", JNull);
                 ("message", JStr ("Could not retrieve any message after "
                                   ++ format_float timeout ++ " seconds"))], w)
  end.

Definition wait_for_email (fuel : nat) (self : t) (mailbox_name token : string)
  (timeout : Q) (check_interval : Z) (w : World)
  : option (res ViewEmail.t * World) :=
  let start_time := now w in
  poll fuel self mailbox_name token timeout check_interval start_time w.

End Client.

End DeveloperEmail.

(** ** Scenarios: concrete services and worlds *)

Module Scenario.

Import DeveloperEmail.

(** A fresh world: time zero, nothing sent. *)
Definition w0 : World := mkWorld 0 0 [].

Definition dev : DeveloperEmail.t := init "v1".

(** A 200 response whose envelope holds [v] as its result. *)
Definition ok200 (v : json) : Attempt :=
  mkAttempt 0 (Responds 200 (Ok (JDict [("result", v)]))).

(** Every attempt is answered 503 with a body that is no JSON. *)
Definition unavailable (n : nat) (r : Request) : Attempt :=
  mkAttempt 0 (Responds 503 (Raise (ClientError "unexpected mimetype: text/html"))).

(** Every attempt fails to connect. *)
Definition unreachable (n : nat) (r : Request) : Attempt :=
  mkAttempt 0 (Fails (ClientError "Cannot connect to host")).

(** Two connection failures, then a new mailbox. *)
Definition flaky (n : nat) (r : Request) : Attempt :=
  match n with
  | 0%nat | 1%nat => mkAttempt 0 (Fails (ClientError "Cannot connect to host"))
  | _ => ok200 (JDict [("name", JStr "bob"); ("token", JStr "s3cr3t")])
  end.

(** The mailbox never holds a message. *)
Definition empty_mailbox (n : nat) (r : Request) : Attempt :=
  ok200 (JList []).

(** The mailbox lists the id 7, and the fetch of it returns no record. *)
Definition listed_but_gone (n : nat) (r : Request) : Attempt :=
  match n with
  | 0%nat => ok200 (JList [JStr "7"])
  | _ => ok200 (JList [])
  end.

(** The fetch returns the two records of the ids 1 and 2. *)
Definition two_messages (n : nat) (r : Request) : Attempt :=
  ok200 (JList [JDict [("key", JInt 1); ("value", JStr "a")];
                JDict [("key", JInt 2); ("value", JStr "b")]]).


(** How the scenarios print a float.  No result below depends on it: the
    text it would go into never reaches a caller. *)
Definition print_float (q : Q) : string := "2.0".

End Scenario.

(** ** What the statements below refer to *)

Import DeveloperEmail.

(** What [EmailException(status=..., message=...)] raises: the initialiser
    has no parameter named [status]. *)
Definition status_keyword_error : exn :=
  TypeError "EmailException.__init__() got an unexpected keyword argument 'status'".

(** The effects of [n] attempts that all raise: a sleep of one second
    between two attempts, none after the last. *)
Fixpoint retry_log (r : Request) (n : nat) : list Event :=
  match n with
  | O => []
  | S O => [Sent r]
  | S n' => Sent r :: Slept 1 :: retry_log r n'
  end.

(** The request [get_message_ids] sends. *)
Definition list_request (self : DeveloperEmail.t) (mailbox_name token : string) : Request :=
  mkRequest "GET" (base_url self ++ "/mailbox/" ++ mailbox_name)
    [("accept", "application/json"); ("X-MailboxToken", token)] None None default_timeout.

(** The request [get_messages] sends. *)
Definition fetch_request (self : DeveloperEmail.t) (mailbox_name token : string)
  (message_ids : list json) : Request :=
  mkRequest "POST" (base_url self ++ "/mailbox/" ++ mailbox_name ++ "/messages")
    [("accept", "application/json"); ("X-MailboxToken", token);
     ("Content-Type", "application/json")]
    (Some (JDict [("message_ids", JList message_ids)])) None default_timeout.

(** The effects of [n] polls that each find no id: the listing, then the
    sleep between two polls. *)
Fixpoint poll_log (r : Request) (check_interval : Z) (n : nat) : list Event :=
  match n with
  | O => []
  | S n' => Sent r :: Slept (inject_Z check_interval) :: poll_log r check_interval n'
  end.

(** A record of a fetch response that has both fields. *)
Definition has_key_and_value (fields : list (string * json)) : bool :=
  match lookup "key" fields, lookup "value" fields with
  | Some _, Some _ => true
  | _, _ => false
  end.

(** The message a well-formed record stands for. *)
Definition message_of (fields : list (string * json)) : Email.t :=
  Email.mk (dict_get "key" fields) (dict_get "value" fields).

From Stdlib Require DecimalPos.

(** ** Further scenarios *)

Module Scenario2.

Import DeveloperEmail.

(** A 503, then a connection failure, then a new mailbox. *)
Definition recovering (n : nat) (r : Request) : Attempt :=
  match n with
  | 0%nat => mkAttempt 0 (Responds 503 (Raise (ClientError "unexpected mimetype: text/html")))
  | 1%nat => mkAttempt 0 (Fails (ClientError "Cannot connect to host"))
  | _ => Scenario.ok200 (JDict [("name", JStr "bob"); ("token", JStr "s3cr3t")])
  end.

(** Every attempt is answered 200 with a JSON array where the envelope
    should be. *)
Definition no_envelope (n : nat) (r : Request) : Attempt :=
  mkAttempt 0 (Responds 200 (Ok (JList []))).

(** Every attempt is answered 200 with an envelope that holds no result. *)
Definition no_result (n : nat) (r : Request) : Attempt :=
  mkAttempt 0 (Responds 200 (Ok (JDict [("success", JBool false)]))).

(** The creation is answered with a token and no name. *)
Definition no_name (n : nat) (r : Request) : Attempt :=
  Scenario.ok200 (JDict [("token", JStr "s3cr3t")]).



End Scenario2.

(** ** Further notions for the statements *)


(** What [wait_for_email] may do for a mailbox: list it, fetch one id from
    it, sleep the second between two attempts, or sleep the check interval. *)
Definition poll_event (self : DeveloperEmail.t) (mailbox_name token : string)
  (check_interval : Z) (ev : Event) : Prop :=
  ev = Sent (list_request self mailbox_name token)
  \/ (exists z, ev = Sent (fetch_request self mailbox_name token [JInt z]))
  \/ ev = Slept 1
  \/ ev = Slept (inject_Z check_interval).

(** The request [create_mail] sends. *)
Definition create_request (self : DeveloperEmail.t) : Request :=
  mkRequest "PUT" (base_url self ++ "/mailbox") [("accept", "application/json")]
    None None default_timeout.

(** ** The exception class *)

Lemma new_EmailException_status (status message : json) :
  error.new_EmailException [("status", status); ("message", message)]
  = Raise status_keyword_error.
Proof. reflexivity. Qed.

Lemma raise_EmailException_status (A : Type) (status message : json) :
  @error.raise_EmailException A [("status", status); ("message", message)]
  = Raise status_keyword_error.
Proof. reflexivity. Qed.

Lemma new_EmailException_stats (stats message : json) :
  error.new_EmailException [("stats", stats); ("message", message)]
  = Ok (EmailException stats message).
Proof. reflexivity. Qed.

(** ** The request primitive *)

Section Http.

Variable service : nat -> Request -> Attempt.

Lemma attempts_from_non_200 (r : Request) (n : nat) :
  forall (attempt attempts : Z) (w : World),
    (forall i, (i < n)%nat ->
       exists lat status body,
         service (issued w + i)%nat r = mkAttempt lat (Responds status body)
         /\ status <> 200%Z) ->
    let out := attempts_from service n attempt attempts r w in
    fst out = Raise status_keyword_error
    /\ issued (snd out) = (issued w + n)%nat
    /\ log (snd out) = (log w ++ repeat (Sent r) n)%list.
Proof.
  induction n as [|n IH]; intros attempt attempts w Hsvc; cbn zeta.
  - cbn [attempts_from fst snd repeat].
    rewrite raise_EmailException_status, Nat.add_0_r, app_nil_r. auto.
  - destruct (Hsvc 0%nat) as (lat & status & body & Hs & Hne); [lia|].
    rewrite Nat.add_0_r in Hs.
    cbn [attempts_from]. unfold send. rewrite Hs. cbn [outcome latency try_body].
    apply Z.eqb_neq in Hne. rewrite Hne.
    set (w1 := mkWorld _ _ _).
    destruct (IH (attempt + 1)%Z attempts w1) as (Hres & Hiss & Hlog).
    + intros i Hi. subst w1. cbn [issued].
      replace (S (issued w) + i)%nat with (issued w + S i)%nat by lia.
      apply Hsvc. lia.
    + rewrite Hres, Hiss, Hlog. subst w1. cbn [issued log repeat].
      rewrite <- app_assoc. cbn [app]. repeat split. lia.
Qed.

(** One turn of the loop. *)
Lemma attempts_from_S (remaining : nat) (attempt attempts : Z) (r : Request) (w : World) :
  attempts_from service (S remaining) attempt attempts r w =
  match try_body (fst (send service r w)) with
  | Ok (Some result) => (Ok result, snd (send service r w))
  | Ok None =>
      attempts_from service remaining (attempt + 1)%Z attempts r (snd (send service r w))
  | Raise e =>
      if (attempt =? attempts - 1)%Z
      then (error.raise_EmailException
              [("status", JInt 500); ("message", JStr (str_exn e))],
            snd (send service r w))
      else attempts_from service remaining (attempt + 1)%Z attempts r
             (snd (sleep 1 (snd (send service r w))))
  end.
Proof. reflexivity. Qed.

Lemma attempts_from_all_fail (r : Request) (n : nat) :
  forall (attempt attempts : Z) (w : World),
    (attempt = attempts - Z.of_nat (S n))%Z ->
    (forall i, (i < S n)%nat ->
       exists lat e, service (issued w + i)%nat r = mkAttempt lat (Fails e)) ->
    let out := attempts_from service (S n) attempt attempts r w in
    fst out = Raise status_keyword_error
    /\ issued (snd out) = (issued w + S n)%nat
    /\ log (snd out) = (log w ++ retry_log r (S n))%list.
Proof.
  induction n as [|n IH]; intros attempt attempts w Hat Hsvc; cbn zeta;
    (destruct (Hsvc 0%nat) as (lat & e & Hs); [lia|]);
    rewrite Nat.add_0_r in Hs;
    rewrite attempts_from_S; unfold send; rewrite Hs; cbn [outcome latency try_body fst snd].
  - replace (attempt =? attempts - 1)%Z with true by (symmetry; apply Z.eqb_eq; lia).
    rewrite raise_EmailException_status. cbn [fst snd issued log retry_log].
    repeat split. lia.
  - replace (attempt =? attempts - 1)%Z with false by (symmetry; apply Z.eqb_neq; lia).
    set (w2 := snd (sleep 1 _)).
    destruct (IH (attempt + 1)%Z attempts w2) as (Hres & Hiss & Hlog).
    + lia.
    + intros i Hi. subst w2. cbn [sleep snd issued].
      replace (S (issued w) + i)%nat with (issued w + S i)%nat by lia.
      apply Hsvc. lia.
    + rewrite Hres, Hiss, Hlog. subst w2. cbn [sleep snd issued log].
      rewrite <- !app_assoc. cbn [app retry_log]. repeat split. lia.
Qed.

(** The first two attempts raise and the third is answered 200 with a JSON
    object: the loop returns what [get] finds under the result key. *)
Lemma attempts_from_third_succeeds (r : Request) (w : World)
  (lat0 lat1 lat2 : Q) (e0 e1 : exn) (doc : list (string * json)) :
  service (issued w) r = mkAttempt lat0 (Fails e0) ->
  service (S (issued w)) r = mkAttempt lat1 (Fails e1) ->
  service (S (S (issued w))) r = mkAttempt lat2 (Responds 200 (Ok (JDict doc))) ->
  let out := attempts_from service 3 0 3 r w in
  fst out = Ok (dict_get "result" doc)
  /\ issued (snd out) = (issued w + 3)%nat
  /\ log (snd out) = (log w ++ [Sent r; Slept 1; Sent r; Slept 1; Sent r])%list.
Proof.
  intros H0 H1 H2. cbn zeta.
  rewrite attempts_from_S. unfold send. rewrite H0.
  cbn [outcome latency try_body fst snd].
  change (0 =? 3 - 1)%Z with false. cbn iota.
  rewrite attempts_from_S. unfold send. cbn [sleep snd issued log]. rewrite H1.
  cbn [outcome latency try_body fst snd].
  change (0 + 1 =? 3 - 1)%Z with false. cbn iota.
  rewrite attempts_from_S. unfold send. cbn [sleep snd issued log]. rewrite H2.
  cbn [outcome latency try_body fst snd rbind get issued log].
  change (200 =? 200)%Z with true. cbn iota.
  unfold dict_get. rewrite <- !app_assoc. cbn [app].
  repeat split. cbn [snd issued]. lia.
Qed.

End Http.

(** C3: with [n] attempts allowed, when each of the [n] attempts is answered
    with a status other than 200, whatever the body (a body that is no JSON
    included), the request primitive sends the request [n] times with no
    sleep in between, and ends by raising; what it raises is the [TypeError]
    of the rejected [status] keyword, not an [EmailException]. *)
Theorem http_req_non_200_exhausted
  (service : nat -> Request -> Attempt) (method url : string)
  (headers : list (string * string)) (payload : option json) (proxy : option string)
  (timeout : Q) (n : nat) (w : World) :
  (forall i, (i < n)%nat ->
     exists lat status body,
       service (issued w + i)%nat (mkRequest method url headers payload proxy timeout)
       = mkAttempt lat (Responds status body)
       /\ status <> 200%Z) ->
  let out := http_req service method url headers payload proxy timeout (Z.of_nat n) w in
  fst out = Raise status_keyword_error
  /\ issued (snd out) = (issued w + n)%nat
  /\ log (snd out)
     = (log w ++ repeat (Sent (mkRequest method url headers payload proxy timeout)) n)%list.
Proof.
  intros Hsvc. unfold http_req. rewrite Nat2Z.id.
  apply attempts_from_non_200. exact Hsvc.
Qed.

Lemma http_req_non_200_exhausted_unavailable :
  fst (http_req Scenario.unavailable "PUT" "https://www.developermail.com/api/v1/mailbox"
         [("accept", "application/json")] None None 10 3 Scenario.w0)
  = Raise status_keyword_error
  /\ issued (snd (http_req Scenario.unavailable "PUT"
                    "https://www.developermail.com/api/v1/mailbox"
                    [("accept", "application/json")] None None 10 3 Scenario.w0))
     = 3%nat
  /\ log (snd (http_req Scenario.unavailable "PUT"
                 "https://www.developermail.com/api/v1/mailbox"
                 [("accept", "application/json")] None None 10 3 Scenario.w0))
     = repeat (Sent (mkRequest "PUT" "https://www.developermail.com/api/v1/mailbox"
                       [("accept", "application/json")] None None 10)) 3.
Proof.
  apply (http_req_non_200_exhausted Scenario.unavailable "PUT"
           "https://www.developermail.com/api/v1/mailbox"
           [("accept", "application/json")] None None 10 3 Scenario.w0).
  intros i _.
  exists 0%Q, 503%Z, (Raise (ClientError "unexpected mimetype: text/html")).
  split; [reflexivity | discriminate].
Defined.

(** C4: with [n+1] attempts allowed, when every attempt ends in an exception
    of the transport, the request primitive sleeps one second after each
    attempt but the last and sends again; on the last attempt it raises
    without sleeping, and what it raises is the [TypeError] of the rejected
    [status] keyword, not an [EmailException] that wraps the failure. *)
Theorem http_req_all_attempts_raise
  (service : nat -> Request -> Attempt) (method url : string)
  (headers : list (string * string)) (payload : option json) (proxy : option string)
  (timeout : Q) (n : nat) (w : World) :
  (forall i, (i < S n)%nat ->
     exists lat e,
       service (issued w + i)%nat (mkRequest method url headers payload proxy timeout)
       = mkAttempt lat (Fails e)) ->
  let out := http_req service method url headers payload proxy timeout (Z.of_nat (S n)) w in
  fst out = Raise status_keyword_error
  /\ issued (snd out) = (issued w + S n)%nat
  /\ log (snd out)
     = (log w ++ retry_log (mkRequest method url headers payload proxy timeout) (S n))%list.
Proof.
  intros Hsvc. unfold http_req. rewrite Nat2Z.id.
  apply attempts_from_all_fail; [lia | exact Hsvc].
Qed.

Lemma http_req_all_attempts_raise_unreachable :
  fst (http_req Scenario.unreachable "PUT" "https://www.developermail.com/api/v1/mailbox"
         [("accept", "application/json")] None None 10 3 Scenario.w0)
  = Raise status_keyword_error
  /\ issued (snd (http_req Scenario.unreachable "PUT"
                    "https://www.developermail.com/api/v1/mailbox"
                    [("accept", "application/json")] None None 10 3 Scenario.w0))
     = 3%nat
  /\ log (snd (http_req Scenario.unreachable "PUT"
                 "https://www.developermail.com/api/v1/mailbox"
                 [("accept", "application/json")] None None 10 3 Scenario.w0))
     = [Sent (mkRequest "PUT" "https://www.developermail.com/api/v1/mailbox"
                [("accept", "application/json")] None None 10);
        Slept 1;
        Sent (mkRequest "PUT" "https://www.developermail.com/api/v1/mailbox"
                [("accept", "application/json")] None None 10);
        Slept 1;
        Sent (mkRequest "PUT" "https://www.developermail.com/api/v1/mailbox"
                [("accept", "application/json")] None None 10)].
Proof.
  apply (http_req_all_attempts_raise Scenario.unreachable "PUT"
           "https://www.developermail.com/api/v1/mailbox"
           [("accept", "application/json")] None None 10 2 Scenario.w0).
  intros i _.
  exists 0%Q, (ClientError "Cannot connect to host").
  reflexivity.
Defined.

(** C6: with three attempts allowed, when the first two attempts end in an
    exception of the transport and the third is answered 200 with a JSON
    object, the request primitive returns what the object holds under the
    result key ([None] when it holds nothing there) and raises nothing; it
    has sent three times and slept one second twice. *)
Theorem http_req_third_attempt_succeeds
  (service : nat -> Request -> Attempt) (method url : string)
  (headers : list (string * string)) (payload : option json) (proxy : option string)
  (timeout : Q) (w : World) (lat0 lat1 lat2 : Q) (e0 e1 : exn)
  (doc : list (string * json)) :
  service (issued w) (mkRequest method url headers payload proxy timeout)
  = mkAttempt lat0 (Fails e0) ->
  service (S (issued w)) (mkRequest method url headers payload proxy timeout)
  = mkAttempt lat1 (Fails e1) ->
  service (S (S (issued w))) (mkRequest method url headers payload proxy timeout)
  = mkAttempt lat2 (Responds 200 (Ok (JDict doc))) ->
  let out := http_req service method url headers payload proxy timeout 3 w in
  fst out = Ok (dict_get "result" doc)
  /\ issued (snd out) = (issued w + 3)%nat
  /\ log (snd out)
     = (log w ++ [Sent (mkRequest method url headers payload proxy timeout); Slept 1;
                  Sent (mkRequest method url headers payload proxy timeout); Slept 1;
                  Sent (mkRequest method url headers payload proxy timeout)])%list.
Proof.
  intros H0 H1 H2. unfold http_req.
  change (Z.to_nat 3) with 3%nat.
  exact (attempts_from_third_succeeds service _ w lat0 lat1 lat2 e0 e1 doc H0 H1 H2).
Qed.

Lemma http_req_third_attempt_succeeds_flaky :
  fst (http_req Scenario.flaky "PUT" "https://www.developermail.com/api/v1/mailbox"
         [("accept", "application/json")] None None 10 3 Scenario.w0)
  = Ok (JDict [("name", JStr "bob"); ("token", JStr "s3cr3t")])
  /\ issued (snd (http_req Scenario.flaky "PUT"
                    "https://www.developermail.com/api/v1/mailbox"
                    [("accept", "application/json")] None None 10 3 Scenario.w0))
     = 3%nat
  /\ log (snd (http_req Scenario.flaky "PUT"
                 "https://www.developermail.com/api/v1/mailbox"
                 [("accept", "application/json")] None None 10 3 Scenario.w0))
     = [Sent (mkRequest "PUT" "https://www.developermail.com/api/v1/mailbox"
                [("accept", "application/json")] None None 10);
        Slept 1;
        Sent (mkRequest "PUT" "https://www.developermail.com/api/v1/mailbox"
                [("accept", "application/json")] None None 10);
        Slept 1;
        Sent (mkRequest "PUT" "https://www.developermail.com/api/v1/mailbox"
                [("accept", "application/json")] None None 10)].
Proof.
  apply (http_req_third_attempt_succeeds Scenario.flaky "PUT"
           "https://www.developermail.com/api/v1/mailbox"
           [("accept", "application/json")] None None 10 Scenario.w0
           0 0 0 (ClientError "Cannot connect to host") (ClientError "Cannot connect to host")
           [("result", JDict [("name", JStr "bob"); ("token", JStr "s3cr3t")])]);
    reflexivity.
Defined.

(** ** The three REST operations *)

Section Operations.

Variable service : nat -> Request -> Attempt.

(** An attempt answered 200 with a JSON object ends the loop at once. *)
Lemma http_req_answered (method url : string) (headers : list (string * string))
  (payload : option json) (proxy : option string) (timeout : Q) (w : World)
  (lat : Q) (doc : list (string * json)) :
  service (issued w) (mkRequest method url headers payload proxy timeout)
  = mkAttempt lat (Responds 200 (Ok (JDict doc))) ->
  http_req service method url headers payload proxy timeout default_attempts w
  = (Ok (dict_get "result" doc),
     snd (send service (mkRequest method url headers payload proxy timeout) w)).
Proof.
  intros Hs. unfold http_req.
  change (Z.to_nat default_attempts) with 3%nat.
  rewrite attempts_from_S. unfold send. rewrite Hs.
  reflexivity.
Qed.

Lemma collect_dicts (records : list (list (string * json))) :
  forall all_emails,
    ViewEmail.collect (map JDict records) all_emails
    = if forallb has_key_and_value records
      then Ok (all_emails ++ map message_of records)%list
      else Raise (ValueError "Invalid format for email data dictionary").
Proof.
  induction records as [|fields rest IH]; intros all_emails.
  - cbn. now rewrite app_nil_r.
  - cbn [map ViewEmail.collect forallb contains rbind].
    unfold has_key_and_value at 1, message_of, dict_get.
    destruct (lookup "key" fields) as [k|] eqn:Hk; cbn [rbind contains];
      destruct (lookup "value" fields) as [v|] eqn:Hv; cbn [rbind getitem andb];
      try reflexivity.
    rewrite Hk, Hv. cbn [rbind]. rewrite IH.
    destruct (forallb has_key_and_value rest); [|reflexivity].
    now rewrite <- app_assoc.
Qed.



Lemma get_messages_answered (self : DeveloperEmail.t) (mailbox_name token : string)
  (message_ids : list json) (w : World) (lat : Q) (doc : list (string * json)) :
  (forall r, service (issued w) r = mkAttempt lat (Responds 200 (Ok (JDict doc)))) ->
  get_messages service self mailbox_name token message_ids w
  = (ViewEmail.from_dict (dict_get "result" doc),
     mkWorld (later lat (now w)) (S (issued w))
       (log w ++ [Sent (fetch_request self mailbox_name token message_ids)])%list).
Proof.
  intros Hs. unfold get_messages, bind.
  rewrite (http_req_answered _ _ _ _ _ _ w lat doc (Hs _)).
  unfold send. rewrite Hs. cbn [snd latency lift]. now destruct (ViewEmail.from_dict _).
Qed.

Lemma get_message_ids_answered (self : DeveloperEmail.t) (mailbox_name token : string)
  (w : World) (lat : Q) (doc : list (string * json)) :
  (forall r, service (issued w) r = mkAttempt lat (Responds 200 (Ok (JDict doc)))) ->
  get_message_ids service self mailbox_name token w
  = (EmailIds.from_dict (dict_get "result" doc),
     mkWorld (later lat (now w)) (S (issued w))
       (log w ++ [Sent (list_request self mailbox_name token)])%list).
Proof.
  intros Hs. unfold get_message_ids, bind.
  rewrite (http_req_answered _ _ _ _ _ _ w lat doc (Hs _)).
  unfold send. rewrite Hs. cbn [snd latency lift]. now destruct (EmailIds.from_dict _).
Qed.

Lemma CreateEmail_from_dict_ok (data : json) (m : CreateEmail.t) :
  CreateEmail.from_dict data = Ok m ->
  CreateEmail.domain m = "developermail.com"
  /\ CreateEmail.email m = str (CreateEmail.name m) ++ "@" ++ CreateEmail.domain m.
Proof.
  unfold CreateEmail.from_dict.
  destruct (getitem data "name") as [name|e]; cbn [rbind]; [|discriminate].
  destruct (getitem data "token") as [token|e]; cbn [rbind]; [|discriminate].
  intros H. injection H as <-. split; reflexivity.
Qed.

End Operations.




(** C7: asked for the ids 1 and 2 and answered 200 with the records
    (key 1, value "a") and (key 2, value "b") as the result, [get_messages]
    returns exactly two messages, in that order, with id 1 and content "a",
    then id 2 and content "b". *)
Theorem get_messages_two_records
  (service : nat -> Request -> Attempt) (self : DeveloperEmail.t)
  (mailbox_name token : string) (w : World) (lat : Q) (doc : list (string * json)) :
  (forall r, service (issued w) r = mkAttempt lat (Responds 200 (Ok (JDict doc)))) ->
  lookup "result" doc
  = Some (JList [JDict [("key", JInt 1); ("value", JStr "a")];
                 JDict [("key", JInt 2); ("value", JStr "b")]]) ->
  fst (get_messages service self mailbox_name token [JInt 1; JInt 2] w)
  = Ok (ViewEmail.mk [Email.mk (JInt 1) (JStr "a"); Email.mk (JInt 2) (JStr "b")]).
Proof.
  intros Hs Hres.
  rewrite (get_messages_answered service self mailbox_name token _ w lat doc Hs).
  unfold dict_get. rewrite Hres. reflexivity.
Qed.

Lemma get_messages_two_records_scenario :
  fst (get_messages Scenario.two_messages Scenario.dev "box" "tok" [JInt 1; JInt 2]
         Scenario.w0)
  = Ok (ViewEmail.mk [Email.mk (JInt 1) (JStr "a"); Email.mk (JInt 2) (JStr "b")]).
Proof.
  apply (get_messages_two_records Scenario.two_messages Scenario.dev "box" "tok"
           Scenario.w0 0
           [("result", JList [JDict [("key", JInt 1); ("value", JStr "a")];
                              JDict [("key", JInt 2); ("value", JStr "b")]])]).
  - intros r. reflexivity.
  - reflexivity.
Defined.

(** C8: when the listing is answered 200 with an empty array as the result,
    [get_message_ids] returns a list of no ids and raises nothing. *)
Theorem get_message_ids_empty_mailbox
  (service : nat -> Request -> Attempt) (self : DeveloperEmail.t)
  (mailbox_name token : string) (w : World) (lat : Q) (doc : list (string * json)) :
  (forall r, service (issued w) r = mkAttempt lat (Responds 200 (Ok (JDict doc)))) ->
  lookup "result" doc = Some (JList []) ->
  fst (get_message_ids service self mailbox_name token w) = Ok (EmailIds.mk []).
Proof.
  intros Hs Hres.
  rewrite (get_message_ids_answered service self mailbox_name token w lat doc Hs).
  unfold dict_get. rewrite Hres. reflexivity.
Qed.

Lemma get_message_ids_empty_mailbox_scenario :
  fst (get_message_ids Scenario.empty_mailbox Scenario.dev "box" "tok" Scenario.w0)
  = Ok (EmailIds.mk []).
Proof.
  apply (get_message_ids_empty_mailbox Scenario.empty_mailbox Scenario.dev "box" "tok"
           Scenario.w0 0 [("result", JList [])]).
  - intros r. reflexivity.
  - reflexivity.
Defined.

(** C9: whenever [create_mail] returns a mailbox, its domain is the constant
    "developermail.com" and its address is the name, as an f-string prints
    it, then "@", then that domain; for a name that is a string the address
    is the name followed by "@developermail.com". *)
Theorem create_mail_address
  (service : nat -> Request -> Attempt) (self : DeveloperEmail.t) (w w' : World)
  (m : CreateEmail.t) :
  create_mail service self w = (Ok m, w') ->
  CreateEmail.domain m = "developermail.com"
  /\ CreateEmail.email m = str (CreateEmail.name m) ++ "@" ++ CreateEmail.domain m
  /\ (forall s, CreateEmail.name m = JStr s ->
                CreateEmail.email m = s ++ "@developermail.com").
Proof.
  unfold create_mail, bind, lift.
  destruct (http_req _ _ _ _ _ _ _ _ _) as [[data|e] w1]; [|discriminate].
  intros H. injection H as Hm _.
  destruct (CreateEmail_from_dict_ok data m Hm) as [Hdom Hmail].
  repeat split; trivial.
  intros s Hs. rewrite Hmail, Hs, Hdom. reflexivity.
Qed.

Lemma create_mail_address_flaky :
  fst (create_mail Scenario.flaky Scenario.dev Scenario.w0)
  = Ok (CreateEmail.mk (JStr "bob") "developermail.com" "bob@developermail.com"
          (JStr "s3cr3t"))
  /\ CreateEmail.email
       (CreateEmail.mk (JStr "bob") "developermail.com" "bob@developermail.com"
          (JStr "s3cr3t"))
     = "bob" ++ "@developermail.com".
Proof.
  split; [reflexivity|].
  destruct (create_mail_address Scenario.flaky Scenario.dev Scenario.w0
              (snd (create_mail Scenario.flaky Scenario.dev Scenario.w0))
              (CreateEmail.mk (JStr "bob") "developermail.com"
                 "bob@developermail.com" (JStr "s3cr3t")))
    as (_ & _ & Hstr).
  - reflexivity.
  - exact (Hstr "bob" eq_refl).
Defined.

(** ** The poll loop *)

Section Poll.

Variable service : nat -> Request -> Attempt.
Variable format_float : Q -> string.

Lemma Qlt_bool_true (x y : Q) : Qlt_bool x y = true <-> (x < y)%Q.
Proof.
  unfold Qlt_bool. rewrite negb_true_iff, <- not_true_iff_false, Qle_bool_iff.
  split; [apply Qnot_le_lt | apply Qlt_not_le].
Qed.

Lemma Qlt_bool_false (x y : Q) : Qlt_bool x y = false <-> (y <= x)%Q.
Proof.
  unfold Qlt_bool. rewrite negb_false_iff. apply Qle_bool_iff.
Qed.

Lemma later_le (seconds t : Q) : (t <= later seconds t)%Q.
Proof.
  unfold later. destruct (Qle_bool seconds 0) eqn:H.
  - apply Qle_refl.
  - apply not_true_iff_false in H. rewrite Qle_bool_iff in H. lra.
Qed.

Lemma later_ge (seconds t : Q) : (t + seconds <= later seconds t)%Q.
Proof.
  unfold later. destruct (Qle_bool seconds 0) eqn:H.
  - apply Qle_bool_iff in H. lra.
  - apply Qle_refl.
Qed.

(** At the top of the loop with the deadline reached: the [raise] after the
    loop runs, and nothing else. *)
Lemma poll_deadline (fuel : nat) (self : DeveloperEmail.t) (mailbox_name token : string)
  (timeout : Q) (check_interval : Z) (start_time : Q) (w : World) :
  (timeout <= now w - start_time)%Q ->
  poll service format_float (S fuel) self mailbox_name token timeout check_interval
    start_time w
  = Some (Raise status_keyword_error, w).
Proof.
  intros H. apply Qlt_bool_false in H. cbn [poll]. rewrite H. reflexivity.
Qed.

(** At the top of the loop before the deadline, with a listing that holds no
    id: one sleep, and the loop again. *)
Lemma poll_no_ids (fuel : nat) (self : DeveloperEmail.t) (mailbox_name token : string)
  (timeout : Q) (check_interval : Z) (start_time : Q) (w w1 : World) :
  (now w - start_time < timeout)%Q ->
  get_message_ids service self mailbox_name token w = (Ok (EmailIds.mk []), w1) ->
  poll service format_float (S fuel) self mailbox_name token timeout check_interval
    start_time w
  = poll service format_float fuel self mailbox_name token timeout check_interval
      start_time (snd (sleep (inject_Z check_interval) w1)).
Proof.
  intros H Hids. apply Qlt_bool_true in H. cbn [poll]. rewrite H, Hids. reflexivity.
Qed.

(** A service that answers every listing with an empty array: from a world
    where [k] polls suffice to reach the deadline, the loop ends by raising,
    at or after the deadline, having only listed and slept. *)
Lemma poll_never_ids (self : DeveloperEmail.t) (mailbox_name token : string)
  (timeout : Q) (check_interval : Z) (start_time : Q) :
  (forall n, exists lat doc,
     (forall r, service n r = mkAttempt lat (Responds 200 (Ok (JDict doc))))
     /\ lookup "result" doc = Some (JList [])) ->
  (0 < check_interval)%Z ->
  forall (k : nat) (w : World),
    (timeout - (now w - start_time)
     <= inject_Z (Z.of_nat k) * inject_Z check_interval)%Q ->
    exists (fuel polls : nat) (w' : World),
      poll service format_float fuel self mailbox_name token timeout check_interval
        start_time w
      = Some (Raise status_keyword_error, w')
      /\ (timeout <= now w' - start_time)%Q
      /\ log w'
         = (log w ++ poll_log (list_request self mailbox_name token) check_interval polls)%list.
Proof.
  intros Hsvc Hci.
  assert (Hq : (0 < inject_Z check_interval)%Q)
    by (change 0%Q with (inject_Z 0); rewrite <- Zlt_Qlt; exact Hci).
  induction k as [|k IH]; intros w Hk.
  - exists 1%nat, 0%nat, w. rewrite poll_deadline.
    + cbn [poll_log]. rewrite app_nil_r. repeat split.
      change (inject_Z (Z.of_nat 0)) with 0%Q in Hk. lra.
    + change (inject_Z (Z.of_nat 0)) with 0%Q in Hk. lra.
  - destruct (Qlt_le_dec (now w - start_time) timeout) as [Hlt|Hge].
    + destruct (Hsvc (issued w)) as (lat & doc & Hs & Hres).
      pose proof (get_message_ids_answered service self mailbox_name token w lat doc Hs)
        as Hids.
      unfold dict_get in Hids. rewrite Hres in Hids.
      change (EmailIds.from_dict (JList [])) with (Ok (EmailIds.mk [])) in Hids.
      set (w1 := mkWorld _ _ _) in Hids.
      destruct (IH (snd (sleep (inject_Z check_interval) w1))) as (fuel & polls & w' & Hp & Hd & Hl).
      * cbn [sleep snd now]. subst w1. cbn [now].
        pose proof (later_ge (inject_Z check_interval) (later lat (now w))) as H1.
        pose proof (later_le lat (now w)) as H2.
        rewrite Nat2Z.inj_succ in Hk. unfold Z.succ in Hk.
        rewrite inject_Z_plus in Hk. change (inject_Z 1) with 1%Q in Hk.
        set (a := inject_Z (Z.of_nat k)) in *. set (c := inject_Z check_interval) in *.
        assert (Hmul : ((a + 1) * c == a * c + c)%Q) by ring.
        rewrite Hmul in Hk. lra.
      * exists (S fuel), (S polls), w'.
        rewrite (poll_no_ids fuel self mailbox_name token timeout
                   check_interval start_time w w1 Hlt Hids).
        repeat split; trivial.
        rewrite Hl. cbn [sleep snd log]. subst w1. cbn [log poll_log].
        rewrite <- !app_assoc. reflexivity.
    + exists 1%nat, 0%nat, w. rewrite poll_deadline by exact Hge.
      cbn [poll_log]. rewrite app_nil_r. repeat split. exact Hge.
Qed.

(** Enough polls to wait [timeout] seconds, at one second or more each. *)
Lemma enough_polls (timeout : Q) (check_interval : Z) :
  (0 < check_interval)%Z ->
  (timeout <= inject_Z (Z.of_nat (Z.to_nat (Qceiling timeout))) * inject_Z check_interval)%Q.
Proof.
  intros Hci. rewrite <- inject_Z_mult.
  apply Qle_trans with (inject_Z (Qceiling timeout)); [apply Qle_ceiling|].
  rewrite <- Zle_Qle.
  destruct (Z.le_gt_cases 0 (Qceiling timeout)) as [Hpos|Hneg].
  - rewrite Z2Nat.id by exact Hpos. nia.
  - replace (Z.to_nat (Qceiling timeout)) with 0%nat by lia. simpl. lia.
Qed.

End Poll.

(** C1: at the top of the loop before the deadline, when the listing returns
    a list of ids that is not empty, [wait_for_email] fetches the last id of
    the list and no other, and as soon as that fetch returns a batch it
    returns the batch, without sleeping: the batch is returned whether it
    holds a message or not, since the test [if messages] is on the batch
    object, which is always true, and not on its list of messages. *)
Theorem wait_for_email_returns_any_batch
  (service : nat -> Request -> Attempt) (format_float : Q -> string) (fuel : nat)
  (self : DeveloperEmail.t) (mailbox_name token : string) (timeout : Q)
  (check_interval : Z) (start_time : Q) (w w1 w2 : World)
  (message_ids : EmailIds.t) (newest : Ids.t) (messages : ViewEmail.t) :
  (now w - start_time < timeout)%Q ->
  get_message_ids service self mailbox_name token w = (Ok message_ids, w1) ->
  last_item (EmailIds.mails message_ids) = Ok newest ->
  get_messages service self mailbox_name token [JInt (Ids.id newest)] w1
  = (Ok messages, w2) ->
  poll service format_float (S fuel) self mailbox_name token timeout check_interval
    start_time w
  = Some (Ok messages, w2).
Proof.
  intros Hlt Hids Hlast Hget.
  apply Qlt_bool_true in Hlt. cbn [poll]. rewrite Hlt, Hids.
  destruct message_ids as [mails]. cbn [EmailIds.mails] in *.
  destruct mails as [|first others]; [discriminate Hlast|].
  cbn [truth EmailIds.Truthy_t Truthy_list andb].
  unfold bind, lift. rewrite Hlast, Hget. reflexivity.
Qed.

Lemma wait_for_email_returns_empty_batch :
  wait_for_email Scenario.listed_but_gone Scenario.print_float 1 Scenario.dev
    "box" "tok" 60 5 Scenario.w0
  = Some (Ok (ViewEmail.mk []),
          mkWorld 0 2 [Sent (list_request Scenario.dev "box" "tok");
                       Sent (fetch_request Scenario.dev "box" "tok" [JInt 7])]).
Proof.
  unfold wait_for_email.
  apply (wait_for_email_returns_any_batch Scenario.listed_but_gone Scenario.print_float
           0 Scenario.dev "box" "tok" 60 5 (now Scenario.w0) Scenario.w0
           (mkWorld 0 1 [Sent (list_request Scenario.dev "box" "tok")])
           (mkWorld 0 2 [Sent (list_request Scenario.dev "box" "tok");
                         Sent (fetch_request Scenario.dev "box" "tok" [JInt 7])])
           (EmailIds.mk [Ids.mk 7]) (Ids.mk 7) (ViewEmail.mk []));
    reflexivity.
Defined.

(** C2: against a service that answers every listing with an empty array,
    with a positive check interval, [wait_for_email] ends: it lists and
    sleeps in turn, and leaves the loop at the first loop top where the time
    elapsed is the timeout or more, never before; there it raises, and what
    it raises is the [TypeError] of the rejected [status] keyword, not an
    [EmailException] whose status is [None]. *)
Theorem wait_for_email_never_ids
  (service : nat -> Request -> Attempt) (format_float : Q -> string)
  (self : DeveloperEmail.t) (mailbox_name token : string) (timeout : Q)
  (check_interval : Z) (w : World) :
  (forall n, exists lat doc,
     (forall r, service n r = mkAttempt lat (Responds 200 (Ok (JDict doc))))
     /\ lookup "result" doc = Some (JList [])) ->
  (0 < check_interval)%Z ->
  exists (fuel polls : nat) (w' : World),
    wait_for_email service format_float fuel self mailbox_name token timeout
      check_interval w
    = Some (Raise status_keyword_error, w')
    /\ (timeout <= now w' - now w)%Q
    /\ log w'
       = (log w ++ poll_log (list_request self mailbox_name token) check_interval polls)%list.
Proof.
  intros Hsvc Hci. unfold wait_for_email.
  apply (poll_never_ids service format_float self mailbox_name token timeout
           check_interval (now w) Hsvc Hci (Z.to_nat (Qceiling timeout)) w).
  pose proof (enough_polls timeout check_interval Hci) as H. lra.
Qed.

Lemma wait_for_email_never_ids_two_seconds :
  exists (fuel polls : nat) (w' : World),
    wait_for_email Scenario.empty_mailbox Scenario.print_float fuel Scenario.dev
      "box" "tok" 2 1 Scenario.w0
    = Some (Raise status_keyword_error, w')
    /\ (2 <= now w' - now Scenario.w0)%Q
    /\ log w'
       = (log Scenario.w0 ++ poll_log (list_request Scenario.dev "box" "tok") 1 polls)%list.
Proof.
  apply (wait_for_email_never_ids Scenario.empty_mailbox Scenario.print_float
           Scenario.dev "box" "tok" 2 1 Scenario.w0).
  - intros n. exists 0%Q, [("result", JList [])]. split; [intros r|]; reflexivity.
  - reflexivity.
Defined.

(** The run of C2's scenario in full: two polls at the seconds 0 and 1, and
    the [TypeError] at the second 2. *)
Example wait_for_email_two_second_run (fuel : nat) :
  wait_for_email Scenario.empty_mailbox Scenario.print_float (3 + fuel) Scenario.dev
    "box" "tok" 2 1 Scenario.w0
  = Some (Raise status_keyword_error,
          mkWorld 2 2 [Sent (list_request Scenario.dev "box" "tok"); Slept 1;
                       Sent (list_request Scenario.dev "box" "tok"); Slept 1]).
Proof. reflexivity. Qed.

(** C10: with a timeout that is zero or negative, [wait_for_email] never
    enters the loop: it leaves the world as it found it (nothing sent, no
    sleep, the clock unchanged) and raises at once; what it raises is the
    [TypeError] of the rejected [status] keyword, not the [EmailException]
    of the timeout. *)
Theorem wait_for_email_no_time
  (service : nat -> Request -> Attempt) (format_float : Q -> string) (fuel : nat)
  (self : DeveloperEmail.t) (mailbox_name token : string) (timeout : Q)
  (check_interval : Z) (w : World) :
  (timeout <= 0)%Q ->
  wait_for_email service format_float (S fuel) self mailbox_name token timeout
    check_interval w
  = Some (Raise status_keyword_error, w).
Proof.
  intros H. unfold wait_for_email. apply poll_deadline. lra.
Qed.

Lemma wait_for_email_no_time_zero :
  wait_for_email Scenario.two_messages Scenario.print_float 1 Scenario.dev
    "box" "tok" 0 5 Scenario.w0
  = Some (Raise status_keyword_error, Scenario.w0).
Proof.
  apply (wait_for_email_no_time Scenario.two_messages Scenario.print_float 0
           Scenario.dev "box" "tok" 0 5 Scenario.w0).
  discriminate.
Defined.

(** ** More on the request primitive *)

Section HttpMore.

Variable service : nat -> Request -> Attempt.

(** What holds of every run of the loop, however the service answers. *)
Lemma attempts_from_invariants (r : Request) (n : nat) :
  forall (attempt attempts : Z) (w : World),
    let out := attempts_from service n attempt attempts r w in
    (fst out = Raise status_keyword_error \/ exists v, fst out = Ok v)
    /\ (issued w <= issued (snd out) <= issued w + n)%nat
    /\ (now w <= now (snd out))%Q
    /\ exists evs,
         log (snd out) = (log w ++ evs)%list
         /\ Forall (fun ev => ev = Sent r \/ ev = Slept 1) evs.
Proof.
  induction n as [|n IH]; intros attempt attempts w; cbn zeta.
  - cbn [attempts_from fst snd]. rewrite raise_EmailException_status.
    repeat split; [now left | lia | lia | apply Qle_refl |].
    exists []. now rewrite app_nil_r.
  - rewrite attempts_from_S.
    set (w1 := snd (send service r w)).
    assert (Hi1 : issued w1 = S (issued w)) by reflexivity.
    assert (Hn1 : (now w <= now w1)%Q) by apply later_le.
    assert (Hl1 : log w1 = (log w ++ [Sent r])%list) by reflexivity.
    destruct (try_body (fst (send service r w))) as [[v|]|e].
    + cbn [fst snd]. repeat split; [right; now exists v | lia | lia | exact Hn1 |].
      exists [Sent r]. split; [exact Hl1|]. constructor; [now left | constructor].
    + destruct (IH (attempt + 1)%Z attempts w1) as (Hres & Hiss & Hnow & evs & Hlog & Hevs).
      repeat split; [exact Hres | lia | lia | now apply Qle_trans with (now w1) |].
      exists (Sent r :: evs). split.
      * rewrite Hlog, Hl1, <- app_assoc. reflexivity.
      * constructor; [now left | exact Hevs].
    + destruct (attempt =? attempts - 1)%Z.
      * rewrite raise_EmailException_status. cbn [fst snd].
        repeat split; [now left | lia | lia | exact Hn1 |].
        exists [Sent r]. split; [exact Hl1|]. constructor; [now left | constructor].
      * set (w2 := snd (sleep 1 w1)).
        assert (Hi2 : issued w2 = issued w1) by reflexivity.
        assert (Hn2 : (now w1 <= now w2)%Q) by apply later_le.
        assert (Hl2 : log w2 = (log w1 ++ [Slept 1])%list) by reflexivity.
        destruct (IH (attempt + 1)%Z attempts w2)
          as (Hres & Hiss & Hnow & evs & Hlog & Hevs).
        repeat split; [exact Hres | lia | lia | |].
        -- apply Qle_trans with (now w2); [|exact Hnow].
           now apply Qle_trans with (now w1).
        -- exists (Sent r :: Slept 1 :: evs). split.
           ++ rewrite Hlog, Hl2, Hl1, <- !app_assoc. reflexivity.
           ++ constructor; [now left|]. constructor; [now right | exact Hevs].
Qed.

End HttpMore.

(** X1: whatever the service does, the request primitive sends at most
    [attempts] attempts (none when [attempts] is zero or negative), and the
    count of attempts never goes down. *)
Theorem http_req_attempts_bounded
  (service : nat -> Request -> Attempt) (method url : string)
  (headers : list (string * string)) (payload : option json) (proxy : option string)
  (timeout : Q) (attempts : Z) (w : World) :
  (issued w
   <= issued (snd (http_req service method url headers payload proxy timeout attempts w))
   <= issued w + Z.to_nat attempts)%nat.
Proof.
  unfold http_req.
  destruct (attempts_from_invariants service
              (mkRequest method url headers payload proxy timeout)
              (Z.to_nat attempts) 0 attempts w) as (_ & H & _).
  exact H.
Qed.

(** X2: whatever the service does, the request primitive either returns a
    value or raises the [TypeError] of the rejected [status] keyword: it
    never raises an [EmailException], nor lets an exception of the transport
    through. *)
Theorem http_req_raises_only_TypeError
  (service : nat -> Request -> Attempt) (method url : string)
  (headers : list (string * string)) (payload : option json) (proxy : option string)
  (timeout : Q) (attempts : Z) (w : World) :
  fst (http_req service method url headers payload proxy timeout attempts w)
  = Raise status_keyword_error
  \/ exists v,
       fst (http_req service method url headers payload proxy timeout attempts w) = Ok v.
Proof.
  unfold http_req.
  destruct (attempts_from_invariants service
              (mkRequest method url headers payload proxy timeout)
              (Z.to_nat attempts) 0 attempts w) as (H & _).
  exact H.
Qed.

(** X3: whatever the service does, the request primitive only adds to the
    log, what it adds is the request it was given, sent again and again, and
    sleeps of exactly one second, and the clock does not go back. *)
Theorem http_req_effects
  (service : nat -> Request -> Attempt) (method url : string)
  (headers : list (string * string)) (payload : option json) (proxy : option string)
  (timeout : Q) (attempts : Z) (w : World) :
  let out := http_req service method url headers payload proxy timeout attempts w in
  (now w <= now (snd out))%Q
  /\ exists evs,
       log (snd out) = (log w ++ evs)%list
       /\ Forall (fun ev => ev = Sent (mkRequest method url headers payload proxy timeout)
                            \/ ev = Slept 1) evs.
Proof.
  unfold http_req.
  destruct (attempts_from_invariants service
              (mkRequest method url headers payload proxy timeout)
              (Z.to_nat attempts) 0 attempts w) as (_ & _ & Hnow & Hlog).
  split; assumption.
Qed.

(** X4: with zero or a negative number of attempts allowed, the request
    primitive sends nothing, does not sleep, and raises at once (the
    [TypeError] of the rejected [status] keyword). *)
Theorem http_req_no_attempt
  (service : nat -> Request -> Attempt) (method url : string)
  (headers : list (string * string)) (payload : option json) (proxy : option string)
  (timeout : Q) (attempts : Z) (w : World) :
  (attempts <= 0)%Z ->
  http_req service method url headers payload proxy timeout attempts w
  = (Raise status_keyword_error, w).
Proof.
  intros H. unfold http_req.
  replace (Z.to_nat attempts) with 0%nat by lia.
  reflexivity.
Qed.

Lemma http_req_no_attempt_zero :
  http_req Scenario.flaky "PUT" "https://www.developermail.com/api/v1/mailbox"
    [("accept", "application/json")] None None 10 0 Scenario.w0
  = (Raise status_keyword_error, Scenario.w0).
Proof.
  apply (http_req_no_attempt Scenario.flaky "PUT"
           "https://www.developermail.com/api/v1/mailbox"
           [("accept", "application/json")] None None 10 0 Scenario.w0).
  discriminate.
Defined.

Section HttpSuccess.

Variable service : nat -> Request -> Attempt.

(** [k] attempts that raise or are answered with another status than 200,
    then a 200 with a JSON object, all within the attempts allowed. *)
Lemma attempts_from_first_success (r : Request) (k : nat) :
  forall (n : nat) (attempt attempts : Z) (w : World) (lat : Q)
         (doc : list (string * json)),
    (k < n)%nat ->
    (attempt + Z.of_nat n <= attempts)%Z ->
    (forall i, (i < k)%nat ->
       (exists l e, service (issued w + i)%nat r = mkAttempt l (Fails e))
       \/ (exists l status body,
             service (issued w + i)%nat r = mkAttempt l (Responds status body)
             /\ status <> 200%Z)) ->
    service (issued w + k)%nat r = mkAttempt lat (Responds 200 (Ok (JDict doc))) ->
    let out := attempts_from service n attempt attempts r w in
    fst out = Ok (dict_get "result" doc)
    /\ issued (snd out) = (issued w + k + 1)%nat.
Proof.
  induction k as [|k IH]; intros n attempt attempts w lat doc Hkn Hat Hpre Hok; cbn zeta;
    (destruct n as [|n]; [lia|]); rewrite attempts_from_S.
  - rewrite Nat.add_0_r in Hok. unfold send. rewrite Hok.
    cbn [fst snd outcome try_body]. change (200 =? 200)%Z with true.
    cbn [rbind get fst snd issued]. split; [reflexivity | lia].
  - assert (Hnext : forall w1, issued w1 = S (issued w) ->
              let out := attempts_from service n (attempt + 1)%Z attempts r w1 in
              fst out = Ok (dict_get "result" doc)
              /\ issued (snd out) = (issued w + S k + 1)%nat).
    { intros w1 Hw1. cbn zeta.
      destruct (IH n (attempt + 1)%Z attempts w1 lat doc) as [Hres Hiss].
      - lia.
      - lia.
      - intros i Hi. rewrite Hw1.
        replace (S (issued w) + i)%nat with (issued w + S i)%nat by lia.
        apply Hpre. lia.
      - rewrite Hw1.
        replace (S (issued w) + k)%nat with (issued w + S k)%nat by lia. exact Hok.
      - split; [exact Hres | rewrite Hiss, Hw1; lia]. }
    destruct (Hpre 0%nat) as [(l & e & Hs)|(l & status & body & Hs & Hne)]; [lia|..];
      rewrite Nat.add_0_r in Hs; unfold send; rewrite Hs;
      cbn [fst snd outcome latency try_body].
    + replace (attempt =? attempts - 1)%Z with false by (symmetry; apply Z.eqb_neq; lia).
      apply Hnext. reflexivity.
    + apply Z.eqb_neq in Hne. rewrite Hne. apply Hnext. reflexivity.
Qed.

(** Attempts that all raise inside the [try] block, be it from the transport
    or from reading the body of a 200. *)
Lemma attempts_from_all_raise_in_try (r : Request) (n : nat) :
  forall (attempt attempts : Z) (w : World),
    (attempt = attempts - Z.of_nat (S n))%Z ->
    (forall i, (i < S n)%nat ->
       exists e, try_body (outcome (service (issued w + i)%nat r)) = Raise e) ->
    let out := attempts_from service (S n) attempt attempts r w in
    fst out = Raise status_keyword_error
    /\ issued (snd out) = (issued w + S n)%nat
    /\ log (snd out) = (log w ++ retry_log r (S n))%list.
Proof.
  induction n as [|n IH]; intros attempt attempts w Hat Hsvc; cbn zeta;
    (destruct (Hsvc 0%nat) as (e & Hs); [lia|]);
    rewrite Nat.add_0_r in Hs;
    rewrite attempts_from_S; unfold send; cbn [fst snd]; rewrite Hs.
  - replace (attempt =? attempts - 1)%Z with true by (symmetry; apply Z.eqb_eq; lia).
    rewrite raise_EmailException_status. cbn [fst snd issued log retry_log].
    repeat split. lia.
  - replace (attempt =? attempts - 1)%Z with false by (symmetry; apply Z.eqb_neq; lia).
    set (w2 := snd (sleep 1 _)).
    destruct (IH (attempt + 1)%Z attempts w2) as (Hres & Hiss & Hlog).
    + lia.
    + intros i Hi. subst w2. cbn [sleep snd issued].
      replace (S (issued w) + i)%nat with (issued w + S i)%nat by lia.
      apply Hsvc. lia.
    + rewrite Hres, Hiss, Hlog. subst w2. cbn [sleep snd issued log].
      rewrite <- !app_assoc. cbn [app retry_log]. repeat split. lia.
Qed.

(** A 200 whose body is no JSON object raises inside the [try] block. *)
Lemma try_body_not_an_object (body : res json) :
  (forall doc, body <> Ok (JDict doc)) ->
  exists e, try_body (Responds 200 body) = Raise e.
Proof.
  intros H. cbn [try_body]. change (200 =? 200)%Z with true. cbn iota.
  destruct body as [[| | | | |doc]|e]; cbn [rbind get]; eauto.
  now destruct (H doc).
Qed.

End HttpSuccess.

(** X5: the request primitive returns the first good answer that comes
    within the attempts allowed: when the first [k] attempts each raise or
    are answered with a status other than 200, and the next one, still
    within [attempts], is answered 200 with a JSON object, the call returns
    what the object holds under the result key, after [k + 1] attempts. *)
Theorem http_req_first_success
  (service : nat -> Request -> Attempt) (method url : string)
  (headers : list (string * string)) (payload : option json) (proxy : option string)
  (timeout : Q) (attempts : Z) (k : nat) (w : World) (lat : Q)
  (doc : list (string * json)) :
  (Z.of_nat k < attempts)%Z ->
  (forall i, (i < k)%nat ->
     (exists l e,
        service (issued w + i)%nat (mkRequest method url headers payload proxy timeout)
        = mkAttempt l (Fails e))
     \/ (exists l status body,
           service (issued w + i)%nat (mkRequest method url headers payload proxy timeout)
           = mkAttempt l (Responds status body)
           /\ status <> 200%Z)) ->
  service (issued w + k)%nat (mkRequest method url headers payload proxy timeout)
  = mkAttempt lat (Responds 200 (Ok (JDict doc))) ->
  let out := http_req service method url headers payload proxy timeout attempts w in
  fst out = Ok (dict_get "result" doc)
  /\ issued (snd out) = (issued w + k + 1)%nat.
Proof.
  intros Hk Hpre Hok. unfold http_req.
  apply (attempts_from_first_success service _ k (Z.to_nat attempts) 0 attempts w lat doc);
    trivial; lia.
Qed.

Lemma http_req_first_success_recovering :
  fst (http_req Scenario2.recovering "PUT" "https://www.developermail.com/api/v1/mailbox"
         [("accept", "application/json")] None None 10 3 Scenario.w0)
  = Ok (JDict [("name", JStr "bob"); ("token", JStr "s3cr3t")])
  /\ issued (snd (http_req Scenario2.recovering "PUT"
                    "https://www.developermail.com/api/v1/mailbox"
                    [("accept", "application/json")] None None 10 3 Scenario.w0))
     = 3%nat.
Proof.
  apply (http_req_first_success Scenario2.recovering "PUT"
           "https://www.developermail.com/api/v1/mailbox"
           [("accept", "application/json")] None None 10 3 2 Scenario.w0 0
           [("result", JDict [("name", JStr "bob"); ("token", JStr "s3cr3t")])]).
  - reflexivity.
  - intros [|[|i]] Hi.
    + right. exists 0%Q, 503%Z, (Raise (ClientError "unexpected mimetype: text/html")).
      split; [reflexivity | discriminate].
    + left. exists 0%Q, (ClientError "Cannot connect to host"). reflexivity.
    + exfalso. apply (Nat.lt_irrefl 2). apply Nat.le_lt_trans with (S (S i)).
      * apply le_n_S, le_n_S, Nat.le_0_l.
      * exact Hi.
  - reflexivity.
Defined.

(** X6: a 200 whose body does not decode to a JSON object (it does not
    decode, or it decodes to an array, a string, a number or null) is handled
    as a failure of the transport: with [n+1] attempts allowed and every
    attempt answered so, the primitive sends [n+1] times with a sleep of one
    second between two attempts and ends with the [TypeError] of the rejected
    [status] keyword. *)
Theorem http_req_body_not_an_object
  (service : nat -> Request -> Attempt) (method url : string)
  (headers : list (string * string)) (payload : option json) (proxy : option string)
  (timeout : Q) (n : nat) (w : World) :
  (forall i, (i < S n)%nat ->
     exists lat body,
       service (issued w + i)%nat (mkRequest method url headers payload proxy timeout)
       = mkAttempt lat (Responds 200 body)
       /\ forall doc, body <> Ok (JDict doc)) ->
  let out := http_req service method url headers payload proxy timeout (Z.of_nat (S n)) w in
  fst out = Raise status_keyword_error
  /\ issued (snd out) = (issued w + S n)%nat
  /\ log (snd out)
     = (log w ++ retry_log (mkRequest method url headers payload proxy timeout) (S n))%list.
Proof.
  intros Hsvc. unfold http_req. rewrite Nat2Z.id.
  apply attempts_from_all_raise_in_try; [lia|].
  intros i Hi. destruct (Hsvc i Hi) as (lat & body & Hs & Hbody).
  rewrite Hs. cbn [outcome]. now apply try_body_not_an_object.
Qed.

Lemma http_req_body_not_an_object_no_envelope :
  fst (http_req Scenario2.no_envelope "GET"
         "https://www.developermail.com/api/v1/mailbox/box"
         [("accept", "application/json"); ("X-MailboxToken", "tok")] None None 10 3
         Scenario.w0)
  = Raise status_keyword_error
  /\ issued (snd (http_req Scenario2.no_envelope "GET"
                    "https://www.developermail.com/api/v1/mailbox/box"
                    [("accept", "application/json"); ("X-MailboxToken", "tok")] None None
                    10 3 Scenario.w0))
     = 3%nat
  /\ log (snd (http_req Scenario2.no_envelope "GET"
                 "https://www.developermail.com/api/v1/mailbox/box"
                 [("accept", "application/json"); ("X-MailboxToken", "tok")] None None
                 10 3 Scenario.w0))
     = retry_log (mkRequest "GET" "https://www.developermail.com/api/v1/mailbox/box"
                    [("accept", "application/json"); ("X-MailboxToken", "tok")] None None
                    10) 3.
Proof.
  apply (http_req_body_not_an_object Scenario2.no_envelope "GET"
           "https://www.developermail.com/api/v1/mailbox/box"
           [("accept", "application/json"); ("X-MailboxToken", "tok")] None None 10 2
           Scenario.w0).
  intros i _. exists 0%Q, (Ok (JList [])). split; [reflexivity | discriminate].
Defined.

(** ** The builders of the models *)

(** X7: [CreateEmail.from_dict] succeeds exactly on a JSON object that has a
    name and a token; the mailbox then holds that name and that token
    unchanged, the constant domain, and the name followed by
    "@developermail.com" as address; other fields of the object are
    ignored. *)
Theorem CreateEmail_from_dict_succeeds_iff (data : json) (m : CreateEmail.t) :
  CreateEmail.from_dict data = Ok m
  <-> exists fields name token,
        data = JDict fields
        /\ lookup "name" fields = Some name
        /\ lookup "token" fields = Some token
        /\ m = CreateEmail.mk name "developermail.com"
                 (str name ++ "@developermail.com") token.
Proof.
  unfold CreateEmail.from_dict. split.
  - destruct data as [| | | | |fields]; cbn [getitem rbind]; try discriminate.
    destruct (lookup "name" fields) as [name|] eqn:Hn; cbn [rbind]; [|discriminate].
    destruct (lookup "token" fields) as [token|] eqn:Ht; cbn [rbind]; [|discriminate].
    intros H. injection H as <-. exists fields, name, token. repeat split; trivial.
  - intros (fields & name & token & -> & Hn & Ht & ->).
    cbn [getitem]. rewrite Hn, Ht. reflexivity.
Qed.

Section Lists.

Lemma rmap_Ok_iff {A B : Type} (f : A -> res B) (l : list A) :
  forall l', rmap f l = Ok l' <-> Forall2 (fun x y => f x = Ok y) l l'.
Proof.
  induction l as [|x l IH]; intros l'; cbn [rmap].
  - split.
    + intros H. injection H as <-. constructor.
    + intros H. inversion H. reflexivity.
  - destruct (f x) as [y|e] eqn:Hx; cbn [rbind].
    + destruct (rmap f l) as [ys|e] eqn:Hl; cbn [rbind].
      * split.
        -- intros H. injection H as <-. constructor; [exact Hx | now apply IH].
        -- intros H. inversion H as [|x0 y0 l0 ys0 Hy Hys]; subst.
           rewrite Hx in Hy. injection Hy as <-.
           apply IH in Hys. injection Hys as <-. reflexivity.
      * split; [discriminate|].
        intros H. inversion H as [|x0 y0 l0 ys0 Hy Hys]; subst.
        apply IH in Hys. discriminate.
    + split; [discriminate|].
      intros H. inversion H as [|x0 y0 l0 ys0 Hy Hys]; subst. congruence.
Qed.

End Lists.

(** X8: [EmailIds.from_dict] on a JSON array succeeds exactly when [int]
    accepts every element, and then returns the converted ids one for one, in
    the order of the array; one element that [int] refuses makes the whole
    call raise. *)
Theorem EmailIds_from_dict_succeeds_iff (items : list json) (m : EmailIds.t) :
  EmailIds.from_dict (JList items) = Ok m
  <-> Forall2 (fun id_str i => int id_str = Ok (Ids.id i)) items (EmailIds.mails m).
Proof.
  unfold EmailIds.from_dict. cbn [iter rbind].
  destruct m as [mails]. cbn [EmailIds.mails].
  destruct (rmap _ items) as [all_ids|e] eqn:Hr; cbn [rbind].
  - apply rmap_Ok_iff in Hr. split.
    + intros H. injection H as <-.
      eapply Forall2_impl; [|exact Hr]. cbn beta. intros x [z].
      destruct (int x); cbn [rbind Ids.id]; congruence.
    + intros H. f_equal. f_equal.
      revert mails H. induction Hr as [|x [z] l l' Hx Hr IH]; intros mails H.
      * inversion H. reflexivity.
      * inversion H as [|x0 [z0] l0 ys0 Hy Hys]; subst.
        cbn [Ids.id] in Hy. rewrite Hy in Hx. cbn [rbind] in Hx.
        injection Hx as <-. f_equal. now apply IH.
  - split; [discriminate|]. intros H. exfalso.
    assert (Hok : rmap (fun id_str => (z <- int id_str ;; Ok (Ids.mk z))%res) items
                  = Ok mails).
    { apply rmap_Ok_iff. eapply Forall2_impl; [|exact H]. cbn beta.
      intros x [z] Hx. cbn [Ids.id] in Hx. now rewrite Hx. }
    congruence.
Qed.

Section Decimal.











End Decimal.



Section Records.

(** A record that is no JSON object never yields a message. *)
Lemma collect_not_an_object (d : json) (rest : list json) (all_emails : list Email.t) :
  (forall fields, d <> JDict fields) ->
  exists e, ViewEmail.collect (d :: rest) all_emails = Raise e.
Proof.
  intros Hd. cbn [ViewEmail.collect].
  destruct d as [| | |s|items|fields]; cbn [contains rbind]; eauto.
  - destruct (index 0 "key" s); cbn [rbind contains]; eauto.
    destruct (index 0 "value" s); cbn [rbind getitem]; eauto.
  - destruct (existsb _ items); cbn [rbind contains]; eauto.
    destruct (existsb _ items); cbn [rbind getitem]; eauto.
  - now destruct (Hd fields).
Qed.

Lemma collect_Ok (records : list json) :
  forall all_emails out,
    ViewEmail.collect records all_emails = Ok out ->
    exists objects,
      records = map JDict objects
      /\ forallb has_key_and_value objects = true
      /\ out = (all_emails ++ map message_of objects)%list.
Proof.
  induction records as [|d rest IH]; intros all_emails out H.
  - cbn in H. injection H as <-. exists []. now rewrite app_nil_r.
  - destruct d as [| | |s|items|fields];
      try (match type of H with
           | ViewEmail.collect (?x :: _) _ = _ =>
               destruct (collect_not_an_object x rest all_emails) as [e He];
               [discriminate | congruence]
           end).
    cbn [ViewEmail.collect contains rbind] in H.
    destruct (lookup "key" fields) as [k|] eqn:Hk; cbn [rbind contains] in H;
      [|discriminate].
    destruct (lookup "value" fields) as [v|] eqn:Hv; cbn [rbind getitem] in H;
      [|discriminate].
    rewrite Hk, Hv in H. cbn [rbind] in H.
    destruct (IH _ _ H) as (objects & -> & Hall & ->).
    exists (fields :: objects). cbn [map forallb].
    unfold has_key_and_value at 1, message_of, dict_get. rewrite Hk, Hv, Hall.
    rewrite <- app_assoc. repeat split.
Qed.

End Records.

(** X10: [ViewEmail.from_dict] on a JSON array succeeds exactly when every
    element is a JSON object that has a key and a value; the batch then holds
    one message per element, in order.  An element that is a string, an
    array, a number, a boolean or null makes the call raise, even when it
    mentions both names. *)
Theorem ViewEmail_from_dict_succeeds_iff (records : list json) (m : ViewEmail.t) :
  ViewEmail.from_dict (JList records) = Ok m
  <-> exists objects,
        records = map JDict objects
        /\ forallb has_key_and_value objects = true
        /\ m = ViewEmail.mk (map message_of objects).
Proof.
  unfold ViewEmail.from_dict. cbn [iter rbind]. split.
  - destruct (ViewEmail.collect records []) as [out|e] eqn:Hc; cbn [rbind];
      [|discriminate].
    intros H. injection H as <-.
    destruct (collect_Ok records [] out Hc) as (objects & Hr & Hall & Hout).
    exists objects. repeat split; trivial. now rewrite Hout.
  - intros (objects & -> & Hall & ->).
    rewrite collect_dicts, Hall. reflexivity.
Qed.

Section Envelope.

Variable service : nat -> Request -> Attempt.

Lemma create_mail_answered (self : DeveloperEmail.t) (w : World) (lat : Q)
  (doc : list (string * json)) :
  (forall r, service (issued w) r = mkAttempt lat (Responds 200 (Ok (JDict doc)))) ->
  create_mail service self w
  = (CreateEmail.from_dict (dict_get "result" doc),
     mkWorld (later lat (now w)) (S (issued w))
       (log w ++ [Sent (mkRequest "PUT" (base_url self ++ "/mailbox")
                          [("accept", "application/json")] None None
                          default_timeout)])%list).
Proof.
  intros Hs. unfold create_mail, bind.
  rewrite (http_req_answered service _ _ _ _ _ _ w lat doc (Hs _)).
  unfold send. rewrite Hs. cbn [snd latency lift]. now destruct (CreateEmail.from_dict _).
Qed.

End Envelope.

(** X11: when the creation is answered 200 with a result that is a JSON
    object without a name, [create_mail] raises [KeyError] for that name;
    with a name and without a token, [KeyError] for the token.  The error
    comes after the request primitive returned: one attempt was sent, nothing
    is retried, and the error is not wrapped in an [EmailException]. *)
Theorem create_mail_missing_field
  (service : nat -> Request -> Attempt) (self : DeveloperEmail.t) (w : World) (lat : Q)
  (doc fields : list (string * json)) :
  (forall r, service (issued w) r = mkAttempt lat (Responds 200 (Ok (JDict doc)))) ->
  lookup "result" doc = Some (JDict fields) ->
  let out := create_mail service self w in
  (lookup "name" fields = None -> fst out = Raise (KeyError "name"))
  /\ (lookup "name" fields <> None -> lookup "token" fields = None ->
      fst out = Raise (KeyError "token"))
  /\ issued (snd out) = S (issued w).
Proof.
  intros Hs Hres. cbn zeta.
  rewrite (create_mail_answered service self w lat doc Hs).
  unfold dict_get. rewrite Hres. cbn [fst snd issued].
  unfold CreateEmail.from_dict. cbn [getitem].
  repeat split.
  - intros Hn. rewrite Hn. reflexivity.
  - intros Hn Ht. destruct (lookup "name" fields); [|congruence].
    rewrite Ht. reflexivity.
Qed.

Lemma create_mail_missing_field_no_name :
  fst (create_mail Scenario2.no_name Scenario.dev Scenario.w0) = Raise (KeyError "name").
Proof.
  destruct (create_mail_missing_field Scenario2.no_name Scenario.dev Scenario.w0 0
              [("result", JDict [("token", JStr "s3cr3t")])]
              [("token", JStr "s3cr3t")]) as (Hname & _ & _).
  - intros r. reflexivity.
  - reflexivity.
  - apply Hname. reflexivity.
Defined.

(** X12: when an operation is answered 200 with an envelope that holds no
    result, the request primitive returns [None] and the builder of the model
    raises a [TypeError]: [create_mail] because [None] cannot be subscripted,
    [get_message_ids] and [get_messages] because [None] cannot be iterated.
    Each has sent one attempt and retries nothing. *)
Theorem operations_without_result
  (service : nat -> Request -> Attempt) (self : DeveloperEmail.t)
  (mailbox_name token : string) (message_ids : list json) (w : World) (lat : Q)
  (doc : list (string * json)) :
  (forall r, service (issued w) r = mkAttempt lat (Responds 200 (Ok (JDict doc)))) ->
  lookup "result" doc = None ->
  (fst (create_mail service self w)
   = Raise (TypeError "'NoneType' object is not subscriptable")
   /\ issued (snd (create_mail service self w)) = S (issued w))
  /\ (fst (get_message_ids service self mailbox_name token w)
      = Raise (TypeError "'NoneType' object is not iterable")
      /\ issued (snd (get_message_ids service self mailbox_name token w)) = S (issued w))
  /\ (fst (get_messages service self mailbox_name token message_ids w)
      = Raise (TypeError "'NoneType' object is not iterable")
      /\ issued (snd (get_messages service self mailbox_name token message_ids w))
         = S (issued w)).
Proof.
  intros Hs Hres.
  rewrite (create_mail_answered service self w lat doc Hs).
  rewrite (get_message_ids_answered service self mailbox_name token w lat doc Hs).
  rewrite (get_messages_answered service self mailbox_name token message_ids w lat doc Hs).
  unfold dict_get. rewrite Hres. repeat split.
Qed.

Lemma operations_without_result_scenario :
  fst (get_message_ids Scenario2.no_result Scenario.dev "box" "tok" Scenario.w0)
  = Raise (TypeError "'NoneType' object is not iterable").
Proof.
  destruct (operations_without_result Scenario2.no_result Scenario.dev "box" "tok" []
              Scenario.w0 0 [("success", JBool false)]) as (_ & (H & _) & _).
  - intros r. reflexivity.
  - reflexivity.
  - exact H.
Defined.

(** ** More on the poll loop *)

Section PollMore.

Variable service : nat -> Request -> Attempt.
Variable format_float : Q -> string.

(** A listing that raises ends the wait with that exception. *)
Lemma poll_listing_raises (fuel : nat) (self : DeveloperEmail.t)
  (mailbox_name token : string) (timeout : Q) (check_interval : Z) (start_time : Q)
  (w w1 : World) (e : exn) :
  (now w - start_time < timeout)%Q ->
  get_message_ids service self mailbox_name token w = (Raise e, w1) ->
  poll service format_float (S fuel) self mailbox_name token timeout check_interval
    start_time w
  = Some (Raise e, w1).
Proof.
  intros Hlt Hids. apply Qlt_bool_true in Hlt. cbn [poll]. rewrite Hlt, Hids. reflexivity.
Qed.



End PollMore.

(** X13: before the deadline, when the three attempts of the listing all end
    in an exception of the transport, [wait_for_email] gives up at once: it
    raises what the request primitive raised (the [TypeError] of the rejected
    [status] keyword) after three attempts and two sleeps of one second,
    without sleeping the check interval and without polling again. *)
Theorem wait_for_email_listing_unreachable
  (service : nat -> Request -> Attempt) (format_float : Q -> string) (fuel : nat)
  (self : DeveloperEmail.t) (mailbox_name token : string) (timeout : Q)
  (check_interval : Z) (w : World) :
  (0 < timeout)%Q ->
  (forall i, (i < 3)%nat ->
     exists lat e,
       service (issued w + i)%nat (list_request self mailbox_name token)
       = mkAttempt lat (Fails e)) ->
  exists w',
    wait_for_email service format_float (S fuel) self mailbox_name token timeout
      check_interval w
    = Some (Raise status_keyword_error, w')
    /\ issued w' = (issued w + 3)%nat
    /\ log w' = (log w ++ retry_log (list_request self mailbox_name token) 3)%list.
Proof.
  intros Hpos Hsvc.
  destruct (attempts_from_all_fail service (list_request self mailbox_name token) 2
              0 3 w eq_refl Hsvc) as (Hres & Hiss & Hlog).
  exists (snd (get_message_ids service self mailbox_name token w)).
  assert (Hids : get_message_ids service self mailbox_name token w
                 = (Raise status_keyword_error,
                    snd (attempts_from service 3 0 3
                           (list_request self mailbox_name token) w))).
  { unfold get_message_ids, bind, http_req.
    change (Z.to_nat default_attempts) with 3%nat.
    change (mkRequest "GET" _ _ None None default_timeout)
      with (list_request self mailbox_name token).
    change default_attempts with 3%Z.
    destruct (attempts_from service 3 0 3 (list_request self mailbox_name token) w)
      as [r w1]. cbn [fst snd] in *. now rewrite Hres. }
  rewrite Hids. cbn [snd]. repeat split; trivial.
  unfold wait_for_email.
  apply (poll_listing_raises service format_float fuel self mailbox_name token timeout
           check_interval (now w) w _ status_keyword_error); [lra | exact Hids].
Qed.

Lemma wait_for_email_listing_unreachable_scenario :
  exists w',
    wait_for_email Scenario.unreachable Scenario.print_float 1 Scenario.dev "box" "tok"
      60 5 Scenario.w0
    = Some (Raise status_keyword_error, w')
    /\ issued w' = 3%nat
    /\ log w' = retry_log (list_request Scenario.dev "box" "tok") 3.
Proof.
  apply (wait_for_email_listing_unreachable Scenario.unreachable Scenario.print_float 0
           Scenario.dev "box" "tok" 60 5 Scenario.w0).
  - reflexivity.
  - intros i _. exists 0%Q, (ClientError "Cannot connect to host"). reflexivity.
Defined.



(** ** More on the exception class *)

Section Keywords.

Lemma set_param_Some (k : string) (v : json) (params : list (string * json)) :
  In k (map fst params) ->
  exists params', set_param k v params = Some params'
                  /\ map fst params' = map fst params.
Proof.
  induction params as [|[p d] rest IH]; cbn [map In set_param fst]; [tauto|].
  intros Hin. destruct (String.eqb_spec k p) as [->|Hne].
  - eexists. split; reflexivity.
  - destruct Hin as [Heq|Hin]; [congruence|].
    destruct (IH Hin) as (params' & Hs & Hk). rewrite Hs. cbn [option_map].
    eexists. split; [reflexivity|]. cbn [map fst]. now rewrite Hk.
Qed.

Lemma set_param_None (k : string) (v : json) (params : list (string * json)) :
  ~ In k (map fst params) -> set_param k v params = None.
Proof.
  induction params as [|[p d] rest IH]; cbn [map In set_param fst]; [reflexivity|].
  intros Hnin. destruct (String.eqb_spec k p) as [->|Hne]; [tauto|].
  rewrite IH by tauto. reflexivity.
Qed.

Lemma bind_keywords_Ok_iff (fname : string) (kwargs : list (string * json)) :
  forall params,
    (exists args, bind_keywords fname params kwargs = Ok args)
    <-> Forall (fun kv => In (fst kv) (map fst params)) kwargs.
Proof.
  induction kwargs as [|[k v] rest IH]; intros params; cbn [bind_keywords].
  - split; [constructor | eauto].
  - destruct (in_dec string_dec k (map fst params)) as [Hin|Hnin].
    + destruct (set_param_Some k v params Hin) as (params' & Hs & Hk).
      rewrite Hs, IH, Hk. split.
      * intros H. constructor; [exact Hin | exact H].
      * intros H. now inversion H.
    + rewrite (set_param_None k v params Hnin). split.
      * intros [args H]. discriminate.
      * intros H. inversion H. tauto.
Qed.

End Keywords.

(** X15: [EmailException] can be built with the keywords [stats] and
    [message] and with no other: a call succeeds exactly when each of its
    keywords is one of these two; any other keyword, [status] included, makes
    the call raise instead of building the exception. *)
Theorem new_EmailException_keywords (kwargs : list (string * json)) :
  (exists e, error.new_EmailException kwargs = Ok e)
  <-> Forall (fun kv => fst kv = "stats" \/ fst kv = "message") kwargs.
Proof.
  unfold error.new_EmailException.
  pose proof (bind_keywords_Ok_iff "EmailException.__init__" kwargs
                error.EmailException_params) as H.
  assert (Hk : Forall (fun kv => In (fst kv) (map fst error.EmailException_params)) kwargs
               <-> Forall (fun kv => fst kv = "stats" \/ fst kv = "message") kwargs).
  { split; intros HF; eapply Forall_impl; try exact HF; cbn; intros kv;
      intuition congruence. }
  rewrite <- Hk, <- H.
  destruct (bind_keywords _ _ kwargs) as [args|e]; cbn [rbind]; split.
  - eauto.
  - eauto.
  - intros [x Hx]. discriminate.
  - intros [x Hx]. discriminate.
Qed.

(** ** Runs of the poll loop *)

Section Runs.

Variable service : nat -> Request -> Attempt.
Variable format_float : Q -> string.

Lemma later_zero (t : Q) : later 0 t = t.
Proof. reflexivity. Qed.

Lemma later_positive (seconds t : Q) : (0 < seconds)%Q -> later seconds t = (t + seconds)%Q.
Proof.
  intros H. unfold later.
  destruct (Qle_bool seconds 0) eqn:Hle; [|reflexivity].
  apply Qle_bool_iff in Hle. lra.
Qed.


End Runs.



Section Events.

Variable service : nat -> Request -> Attempt.
Variable format_float : Q -> string.

Lemma get_message_ids_effects (self : DeveloperEmail.t) (mailbox_name token : string)
  (w : World) :
  exists evs,
    log (snd (get_message_ids service self mailbox_name token w)) = (log w ++ evs)%list
    /\ Forall (fun ev => ev = Sent (list_request self mailbox_name token) \/ ev = Slept 1)
         evs.
Proof.
  unfold get_message_ids, bind, http_req.
  destruct (attempts_from_invariants service (list_request self mailbox_name token)
              (Z.to_nat default_attempts) 0 default_attempts w) as (_ & _ & _ & H).
  fold (list_request self mailbox_name token).
  destruct (attempts_from _ _ _ _ _ w) as [[data|e] w1]; exact H.
Qed.

Lemma get_messages_effects (self : DeveloperEmail.t) (mailbox_name token : string)
  (message_ids : list json) (w : World) :
  exists evs,
    log (snd (get_messages service self mailbox_name token message_ids w))
    = (log w ++ evs)%list
    /\ Forall (fun ev => ev = Sent (fetch_request self mailbox_name token message_ids)
                         \/ ev = Slept 1) evs.
Proof.
  unfold get_messages, bind, http_req.
  destruct (attempts_from_invariants service
              (fetch_request self mailbox_name token message_ids)
              (Z.to_nat default_attempts) 0 default_attempts w) as (_ & _ & _ & H).
  fold (fetch_request self mailbox_name token message_ids).
  destruct (attempts_from _ _ _ _ _ w) as [[data|e] w1]; exact H.
Qed.

Lemma poll_events (self : DeveloperEmail.t) (mailbox_name token : string) (timeout : Q)
  (check_interval : Z) (start_time : Q) (fuel : nat) :
  forall (w : World) (out : res ViewEmail.t * World),
    poll service format_float fuel self mailbox_name token timeout check_interval
      start_time w = Some out ->
    exists evs,
      log (snd out) = (log w ++ evs)%list
      /\ Forall (poll_event self mailbox_name token check_interval) evs.
Proof.
  induction fuel as [|fuel IH]; intros w out H; [discriminate H|].
  cbn [poll] in H.
  destruct (Qlt_bool (now w - start_time) timeout).
  2:{ injection H as <-. exists []. cbn [snd]. now rewrite app_nil_r. }
  destruct (get_message_ids_effects self mailbox_name token w) as (evs1 & Hl1 & He1).
  assert (He1' : Forall (poll_event self mailbox_name token check_interval) evs1).
  { eapply Forall_impl; [|exact He1]. unfold poll_event. intros ev [->| ->]; auto. }
  destruct (get_message_ids service self mailbox_name token w) as [[ids|e] w1].
  2:{ injection H as <-. now exists evs1. }
  cbn [snd] in Hl1.
  assert (Hsleep : forall wx evsx,
            log wx = (log w ++ evsx)%list ->
            Forall (poll_event self mailbox_name token check_interval) evsx ->
            poll service format_float fuel self mailbox_name token timeout
              check_interval start_time (snd (sleep (inject_Z check_interval) wx))
            = Some out ->
            exists evs,
              log (snd out) = (log w ++ evs)%list
              /\ Forall (poll_event self mailbox_name token check_interval) evs).
  { intros wx evsx Hlx Hex Hp.
    destruct (IH _ _ Hp) as (evs & Hl & He).
    exists (evsx ++ Slept (inject_Z check_interval) :: evs)%list. split.
    - rewrite Hl. cbn [sleep snd log]. rewrite Hlx, <- !app_assoc. reflexivity.
    - apply Forall_app. split; [exact Hex|].
      constructor; [|exact He]. unfold poll_event. auto. }
  destruct (truth ids && truth (EmailIds.mails ids)).
  2:{ exact (Hsleep w1 evs1 Hl1 He1' H). }
  unfold bind, lift in H.
  destruct (last_item (EmailIds.mails ids)) as [newest|e].
  2:{ injection H as <-. now exists evs1. }
  destruct (get_messages_effects self mailbox_name token [JInt (Ids.id newest)] w1)
    as (evs2 & Hl2 & He2).
  assert (Hl12 : log (snd (get_messages service self mailbox_name token
                             [JInt (Ids.id newest)] w1))
                 = (log w ++ evs1 ++ evs2)%list)
    by (rewrite Hl2, Hl1, <- app_assoc; reflexivity).
  assert (He12 : Forall (poll_event self mailbox_name token check_interval)
                   (evs1 ++ evs2)%list).
  { apply Forall_app. split; [exact He1'|].
    eapply Forall_impl; [|exact He2]. unfold poll_event.
    intros ev [->| ->]; eauto. }
  destruct (get_messages service self mailbox_name token [JInt (Ids.id newest)] w1)
    as [[messages|e] w2]; cbn [snd] in Hl12.
  2:{ injection H as <-. now exists (evs1 ++ evs2)%list. }
  destruct (truth messages).
  - injection H as <-. now exists (evs1 ++ evs2)%list.
  - exact (Hsleep w2 _ Hl12 He12 H).
Qed.

End Events.

(** X17: whatever the service does and however the wait ends, all that
    [wait_for_email] does is list the mailbox, fetch a single id from it,
    sleep one second between two attempts of a request, and sleep the check
    interval; the log is only added to.  So every request it sends goes to
    the mailbox it was given and carries the token it was given. *)
Theorem wait_for_email_events
  (service : nat -> Request -> Attempt) (format_float : Q -> string) (fuel : nat)
  (self : DeveloperEmail.t) (mailbox_name token : string) (timeout : Q)
  (check_interval : Z) (w : World) (out : res ViewEmail.t * World) :
  wait_for_email service format_float fuel self mailbox_name token timeout
    check_interval w = Some out ->
  exists evs,
    log (snd out) = (log w ++ evs)%list
    /\ Forall (poll_event self mailbox_name token check_interval) evs
    /\ Forall (fun ev => forall r, ev = Sent r ->
                 In ("X-MailboxToken", token) (headers r)
                 /\ (r = list_request self mailbox_name token
                     \/ exists z, r = fetch_request self mailbox_name token [JInt z]))
         evs.
Proof.
  intros H. unfold wait_for_email in H.
  destruct (poll_events service format_float self mailbox_name token timeout
              check_interval (now w) fuel w out H) as (evs & Hl & He).
  exists evs. repeat split; trivial.
  eapply Forall_impl; [|exact He]. unfold poll_event.
  intros ev [->|[[z ->]|[->| ->]]] r Hr; try discriminate; injection Hr as <-.
  - split; [cbn; auto | now left].
  - split; [cbn; auto | right; now exists z].
Qed.

Lemma wait_for_email_events_scenario :
  exists evs,
    log (snd (Ok (ViewEmail.mk []),
              mkWorld 0 2 [Sent (list_request Scenario.dev "box" "tok");
                           Sent (fetch_request Scenario.dev "box" "tok" [JInt 7])]))
    = (log Scenario.w0 ++ evs)%list
    /\ Forall (poll_event Scenario.dev "box" "tok" 5) evs
    /\ Forall (fun ev => forall r, ev = Sent r ->
                 In ("X-MailboxToken", "tok") (headers r)
                 /\ (r = list_request Scenario.dev "box" "tok"
                     \/ exists z, r = fetch_request Scenario.dev "box" "tok" [JInt z]))
         evs.
Proof.
  apply (wait_for_email_events Scenario.listed_but_gone Scenario.print_float 1
           Scenario.dev "box" "tok" 60 5 Scenario.w0).
  reflexivity.
Defined.

Section Overshoot.

Variable service : nat -> Request -> Attempt.
Variable format_float : Q -> string.

(** Against a service that answers every listing at once with an empty
    array, the loop leaves less than one check interval after the
    deadline. *)
Lemma poll_never_ids_overshoot (self : DeveloperEmail.t) (mailbox_name token : string)
  (timeout : Q) (check_interval : Z) (start_time : Q) :
  (forall n, exists doc,
     (forall r, service n r = mkAttempt 0 (Responds 200 (Ok (JDict doc))))
     /\ lookup "result" doc = Some (JList [])) ->
  (0 < check_interval)%Z ->
  forall (k : nat) (w : World),
    (now w - start_time < timeout + inject_Z check_interval)%Q ->
    (timeout - (now w - start_time)
     <= inject_Z (Z.of_nat k) * inject_Z check_interval)%Q ->
    exists (fuel : nat) (w' : World),
      poll service format_float fuel self mailbox_name token timeout check_interval
        start_time w
      = Some (Raise status_keyword_error, w')
      /\ (timeout <= now w' - start_time)%Q
      /\ (now w' - start_time < timeout + inject_Z check_interval)%Q.
Proof.
  intros Hsvc Hci.
  assert (Hq : (0 < inject_Z check_interval)%Q)
    by (change 0%Q with (inject_Z 0); rewrite <- Zlt_Qlt; exact Hci).
  induction k as [|k IH]; intros w Hinv Hk.
  - change (inject_Z (Z.of_nat 0)) with 0%Q in Hk.
    exists 1%nat, w. rewrite poll_deadline by lra. repeat split; [lra | exact Hinv].
  - destruct (Qlt_le_dec (now w - start_time) timeout) as [Hlt|Hge].
    + destruct (Hsvc (issued w)) as (doc & Hs & Hres).
      pose proof (get_message_ids_answered service self mailbox_name token w 0 doc Hs)
        as Hids.
      unfold dict_get in Hids. rewrite Hres in Hids.
      change (EmailIds.from_dict (JList [])) with (Ok (EmailIds.mk [])) in Hids.
      rewrite later_zero in Hids.
      set (w1 := mkWorld _ _ _) in Hids.
      set (w2 := snd (sleep (inject_Z check_interval) w1)).
      assert (Hn2 : now w2 = (now w + inject_Z check_interval)%Q).
      { subst w2 w1. cbn [sleep snd now]. now apply later_positive. }
      rewrite Nat2Z.inj_succ in Hk. unfold Z.succ in Hk.
      rewrite inject_Z_plus in Hk. change (inject_Z 1) with 1%Q in Hk.
      assert (Hexp : ((inject_Z (Z.of_nat k) + 1) * inject_Z check_interval
                      == inject_Z (Z.of_nat k) * inject_Z check_interval
                         + inject_Z check_interval)%Q) by ring.
      rewrite Hexp in Hk.
      destruct (IH w2) as (fuel & w' & Hp & Hd & Ho).
      * rewrite Hn2. lra.
      * rewrite Hn2. lra.
      * exists (S fuel), w'.
        rewrite (poll_no_ids service format_float fuel self mailbox_name token timeout
                   check_interval start_time w w1 Hlt Hids).
        repeat split; assumption.
    + exists 1%nat, w. rewrite poll_deadline by exact Hge.
      repeat split; [exact Hge | exact Hinv].
Qed.

End Overshoot.

(** X18: the check comes before the sleep, so the wait can run past the
    deadline, by less than one check interval: against a service that answers
    every listing at once with an empty array, with a timeout that is not
    negative and a positive check interval, [wait_for_email] stops at a time
    [t] after its start with [timeout <= t < timeout + check_interval]. *)
Theorem wait_for_email_overshoot
  (service : nat -> Request -> Attempt) (format_float : Q -> string)
  (self : DeveloperEmail.t) (mailbox_name token : string) (timeout : Q)
  (check_interval : Z) (w : World) :
  (forall n, exists doc,
     (forall r, service n r = mkAttempt 0 (Responds 200 (Ok (JDict doc))))
     /\ lookup "result" doc = Some (JList [])) ->
  (0 < check_interval)%Z ->
  (0 <= timeout)%Q ->
  exists (fuel : nat) (w' : World),
    wait_for_email service format_float fuel self mailbox_name token timeout
      check_interval w
    = Some (Raise status_keyword_error, w')
    /\ (timeout <= now w' - now w)%Q
    /\ (now w' - now w < timeout + inject_Z check_interval)%Q.
Proof.
  intros Hsvc Hci Hpos. unfold wait_for_email.
  assert (Hq : (0 < inject_Z check_interval)%Q)
    by (change 0%Q with (inject_Z 0); rewrite <- Zlt_Qlt; exact Hci).
  apply (poll_never_ids_overshoot service format_float self mailbox_name token timeout
           check_interval (now w) Hsvc Hci (Z.to_nat (Qceiling timeout)) w).
  - lra.
  - pose proof (enough_polls timeout check_interval Hci) as H. lra.
Qed.

Lemma wait_for_email_overshoot_scenario :
  exists (fuel : nat) (w' : World),
    wait_for_email Scenario.empty_mailbox Scenario.print_float fuel Scenario.dev
      "box" "tok" (5 # 2) 1 Scenario.w0
    = Some (Raise status_keyword_error, w')
    /\ (5 # 2 <= now w' - now Scenario.w0)%Q
    /\ (now w' - now Scenario.w0 < (5 # 2) + inject_Z 1)%Q.
Proof.
  apply (wait_for_email_overshoot Scenario.empty_mailbox Scenario.print_float
           Scenario.dev "box" "tok" (5 # 2) 1 Scenario.w0).
  - intros n. exists [("result", JList [])]. split; [intros r|]; reflexivity.
  - reflexivity.
  - discriminate.
Defined.

(** ** The operations under retries *)

Section Retries.

Variable service : nat -> Request -> Attempt.

(** A loop with an attempt to go sends at least once. *)
Lemma attempts_from_at_least_one (r : Request) (n : nat) (attempt attempts : Z)
  (w : World) :
  (issued w < issued (snd (attempts_from service (S n) attempt attempts r w)))%nat.
Proof.
  rewrite attempts_from_S.
  set (w1 := snd (send service r w)).
  assert (Hi1 : issued w1 = S (issued w)) by reflexivity.
  destruct (try_body (fst (send service r w))) as [[v|]|e].
  - cbn [snd]. lia.
  - destruct (attempts_from_invariants service r n (attempt + 1)%Z attempts w1)
      as (_ & H & _). lia.
  - destruct (attempt =? attempts - 1)%Z.
    + cbn [snd]. lia.
    + set (w2 := snd (sleep 1 w1)).
      assert (Hi2 : issued w2 = issued w1) by reflexivity.
      destruct (attempts_from_invariants service r n (attempt + 1)%Z attempts w2)
        as (_ & H & _). lia.
Qed.

(** What an operation does to the world is what its call of the request
    primitive does. *)
Lemma operation_world {A : Type} (build : json -> res A) (r : Request) (w : World) :
  snd ((data <- attempts_from service 3 0 3 r ;; lift (build data))%io w)
  = snd (attempts_from service 3 0 3 r w).
Proof.
  unfold bind, lift. now destruct (attempts_from service 3 0 3 r w) as [[data|e] w1].
Qed.

Lemma operation_effects {A : Type} (build : json -> res A) (r : Request) (w : World) :
  let w' := snd ((data <- attempts_from service 3 0 3 r ;; lift (build data))%io w) in
  (issued w < issued w' <= issued w + 3)%nat
  /\ exists evs,
       log w' = (log w ++ evs)%list
       /\ Forall (fun ev => ev = Sent r \/ ev = Slept 1) evs.
Proof.
  cbn zeta. rewrite operation_world.
  destruct (attempts_from_invariants service r 3 0 3 w) as (_ & Hiss & _ & Hlog).
  pose proof (attempts_from_at_least_one r 2 0 3 w) as Hone.
  split; [lia | exact Hlog].
Qed.

End Retries.

(** X19: whatever the service does, each of the three operations sends its
    own request and no other (the creation a PUT with no token and no
    payload, the listing a GET with the token, the fetch a POST with the
    token and the ids it was given), at least once and at most three
    times, and sleeps only the second between two attempts. *)
Theorem operations_effects
  (service : nat -> Request -> Attempt) (self : DeveloperEmail.t)
  (mailbox_name token : string) (message_ids : list json) (w : World) :
  ((issued w < issued (snd (create_mail service self w)) <= issued w + 3)%nat
   /\ exists evs,
        log (snd (create_mail service self w)) = (log w ++ evs)%list
        /\ Forall (fun ev => ev = Sent (create_request self) \/ ev = Slept 1) evs)
  /\ ((issued w < issued (snd (get_message_ids service self mailbox_name token w))
       <= issued w + 3)%nat
      /\ exists evs,
           log (snd (get_message_ids service self mailbox_name token w))
           = (log w ++ evs)%list
           /\ Forall (fun ev => ev = Sent (list_request self mailbox_name token)
                                \/ ev = Slept 1) evs)
  /\ ((issued w < issued (snd (get_messages service self mailbox_name token message_ids w))
       <= issued w + 3)%nat
      /\ exists evs,
           log (snd (get_messages service self mailbox_name token message_ids w))
           = (log w ++ evs)%list
           /\ Forall (fun ev => ev = Sent (fetch_request self mailbox_name token message_ids)
                                \/ ev = Slept 1) evs).
Proof.
  split; [|split].
  - exact (operation_effects service CreateEmail.from_dict (create_request self) w).
  - exact (operation_effects service EmailIds.from_dict
             (list_request self mailbox_name token) w).
  - exact (operation_effects service ViewEmail.from_dict
             (fetch_request self mailbox_name token message_ids) w).
Qed.

(** X20: [create_mail] gets through up to two bad attempts: when the first
    [k] attempts, [k] at most two, each raise or are answered with a status
    other than 200, and the next one is answered 200 with a result that
    holds a name, which is a string, and a token, it returns the mailbox of
    that name and token, with the address [name@developermail.com]. *)
Theorem create_mail_after_failures
  (service : nat -> Request -> Attempt) (self : DeveloperEmail.t) (k : nat) (w : World)
  (lat : Q) (doc fields : list (string * json)) (name : string) (token : json) :
  (k < 3)%nat ->
  (forall i, (i < k)%nat ->
     (exists l e, service (issued w + i)%nat (create_request self) = mkAttempt l (Fails e))
     \/ (exists l status body,
           service (issued w + i)%nat (create_request self)
           = mkAttempt l (Responds status body)
           /\ status <> 200%Z)) ->
  service (issued w + k)%nat (create_request self)
  = mkAttempt lat (Responds 200 (Ok (JDict doc))) ->
  lookup "result" doc = Some (JDict fields) ->
  lookup "name" fields = Some (JStr name) ->
  lookup "token" fields = Some token ->
  fst (create_mail service self w)
  = Ok (CreateEmail.mk (JStr name) "developermail.com" (name ++ "@developermail.com")
          token)
  /\ issued (snd (create_mail service self w)) = (issued w + k + 1)%nat.
Proof.
  intros Hk Hpre Hok Hres Hname Htoken.
  destruct (attempts_from_first_success service (create_request self) k 3 0 3 w lat doc)
    as [Hfst Hiss]; trivial; [lia|].
  unfold create_mail, bind, http_req.
  change (Z.to_nat default_attempts) with 3%nat. change default_attempts with 3%Z.
  fold (create_request self).
  destruct (attempts_from service 3 0 3 (create_request self) w) as [r w1].
  cbn [fst snd] in *. subst r. split; [|exact Hiss].
  unfold dict_get. rewrite Hres. unfold lift, CreateEmail.from_dict.
  cbn [fst getitem]. rewrite Hname, Htoken. reflexivity.
Qed.

Lemma create_mail_after_failures_recovering :
  fst (create_mail Scenario2.recovering Scenario.dev Scenario.w0)
  = Ok (CreateEmail.mk (JStr "bob") "developermail.com" ("bob" ++ "@developermail.com")
          (JStr "s3cr3t"))
  /\ issued (snd (create_mail Scenario2.recovering Scenario.dev Scenario.w0)) = 3%nat.
Proof.
  apply (create_mail_after_failures Scenario2.recovering Scenario.dev 2 Scenario.w0 0
           [("result", JDict [("name", JStr "bob"); ("token", JStr "s3cr3t")])]
           [("name", JStr "bob"); ("token", JStr "s3cr3t")] "bob" (JStr "s3cr3t")).
  - apply le_n.
  - intros [|[|i]] Hi.
    + right. exists 0%Q, 503%Z, (Raise (ClientError "unexpected mimetype: text/html")).
      split; [reflexivity | discriminate].
    + left. exists 0%Q, (ClientError "Cannot connect to host"). reflexivity.
    + exfalso. apply (Nat.lt_irrefl 2). apply Nat.le_lt_trans with (S (S i)).
      * apply le_n_S, le_n_S, Nat.le_0_l.
      * exact Hi.
  - reflexivity.
  - reflexivity.
  - reflexivity.
  - reflexivity.
Defined.
